(** * Spring-mass simulator (main.py): the simulation core of [SpringMassSystem]

    The class keeps the physical state of a damped oscillator, a bounded
    history of (time, velocity) samples in two [collections.deque]s, and a
    flag saying whether the velocity plot is still recording.

    Numbers.  Python floats are idealised as exact rationals ([Q]): every
    operation the controller uses ([+], [-], [*], [/], [abs], [<], [<=], [==])
    is exact here, so rounding, overflow and NaN are outside the model.
    Division by zero is kept as the error it is in Python.  The coil geometry
    needs [sin] and [pi] and is therefore stated over the reals.

    Matplotlib artists (lines, texts, sliders) are not part of the model;
    only the attributes of [SpringMassSystem] that the simulation reads and
    writes are. *)

From Stdlib Require Import ZArith QArith Qabs List Sorted Bool Arith Lia Lqa.
From Stdlib Require Reals Lra Qreals.
Import ListNotations.

(** ** Errors *)

(** A Python call either returns or raises; [None] stands for a raised
    exception ([ZeroDivisionError], [ValueError], [IndexError]). *)

Definition bind {A B : Type} (m : option A) (k : A -> option B) : option B :=
  match m with
  | Some a => k a
  | None => None
  end.

Notation "x <- m ;; k" := (bind m (fun x => k))
  (at level 61, m at next level, right associativity).

(** ** [collections.deque] with a [maxlen] *)

Module Deque.

Record t (A : Type) : Type := make { maxlen : nat; items : list A }.

Arguments make {A} _ _.
Arguments maxlen {A} _.
Arguments items {A} _.

(** [deque(maxlen=n)] *)
Definition empty {A : Type} (n : nat) : t A := make n [].

(** [d.append(x)]: the element is added on the right, and when the deque
    is then longer than [maxlen] one element is dropped on the left. *)
Definition append {A : Type} (d : t A) (x : A) : t A :=
  let l := items d ++ [x] in
  make (maxlen d) (if maxlen d <? length l then tl l else l).

(** [d.clear()] *)
Definition clear {A : Type} (d : t A) : t A := make (maxlen d) [].

(** [list(d)] *)
Definition to_list {A : Type} (d : t A) : list A := items d.

(** [for x in xs: d.append(x)] *)
Definition extend {A : Type} (d : t A) (xs : list A) : t A :=
  fold_left append xs d.

End Deque.

(** ** The attributes of [SpringMassSystem] *)

Definition default_x_pos : Q := 2.0.
Definition max_points : nat := 500.

Arguments max_points : simpl never.

Record SpringMassSystem : Type := mkSystem {
  mass : Q;
  resilience : Q;
  damping : Q;
  current_time : Q;
  dt : Q;
  time_modifier : Q;
  x_position : Q;
  velocity : Q;
  time_data : Deque.t Q;
  velocity_data : Deque.t Q;
  velocity_plot_active : bool
}.

(** Attribute assignments [self.f = v]. *)

Definition set_mass (s : SpringMassSystem) (v : Q) : SpringMassSystem :=
  mkSystem v (resilience s) (damping s) (current_time s) (dt s)
          (time_modifier s) (x_position s) (velocity s) (time_data s)
          (velocity_data s) (velocity_plot_active s).

Definition set_resilience (s : SpringMassSystem) (v : Q) : SpringMassSystem :=
  mkSystem (mass s) v (damping s) (current_time s) (dt s)
          (time_modifier s) (x_position s) (velocity s) (time_data s)
          (velocity_data s) (velocity_plot_active s).

Definition set_damping (s : SpringMassSystem) (v : Q) : SpringMassSystem :=
  mkSystem (mass s) (resilience s) v (current_time s) (dt s)
          (time_modifier s) (x_position s) (velocity s) (time_data s)
          (velocity_data s) (velocity_plot_active s).

Definition set_current_time (s : SpringMassSystem) (v : Q) : SpringMassSystem :=
  mkSystem (mass s) (resilience s) (damping s) v (dt s)
          (time_modifier s) (x_position s) (velocity s) (time_data s)
          (velocity_data s) (velocity_plot_active s).

Definition set_time_modifier (s : SpringMassSystem) (v : Q)
  : SpringMassSystem :=
  mkSystem (mass s) (resilience s) (damping s) (current_time s) (dt s)
          v (x_position s) (velocity s) (time_data s)
          (velocity_data s) (velocity_plot_active s).

Definition set_x_position (s : SpringMassSystem) (v : Q) : SpringMassSystem :=
  mkSystem (mass s) (resilience s) (damping s) (current_time s) (dt s)
          (time_modifier s) v (velocity s) (time_data s)
          (velocity_data s) (velocity_plot_active s).

Definition set_velocity (s : SpringMassSystem) (v : Q) : SpringMassSystem :=
  mkSystem (mass s) (resilience s) (damping s) (current_time s) (dt s)
          (time_modifier s) (x_position s) v (time_data s)
          (velocity_data s) (velocity_plot_active s).

Definition set_time_data (s : SpringMassSystem) (d : Deque.t Q)
  : SpringMassSystem :=
  mkSystem (mass s) (resilience s) (damping s) (current_time s) (dt s)
          (time_modifier s) (x_position s) (velocity s) d
          (velocity_data s) (velocity_plot_active s).

Definition set_velocity_data (s : SpringMassSystem) (d : Deque.t Q)
  : SpringMassSystem :=
  mkSystem (mass s) (resilience s) (damping s) (current_time s) (dt s)
          (time_modifier s) (x_position s) (velocity s) (time_data s)
          d (velocity_plot_active s).

Definition set_velocity_plot_active (s : SpringMassSystem) (b : bool)
  : SpringMassSystem :=
  mkSystem (mass s) (resilience s) (damping s) (current_time s) (dt s)
          (time_modifier s) (x_position s) (velocity s) (time_data s)
          (velocity_data s) b.

(** [__init__] (without [setup_plot]). *)
Definition init : SpringMassSystem :=
  mkSystem 1.0 10.0 0.5 0 0.02 1.0 default_x_pos 0.0
          (Deque.empty max_points) (Deque.empty max_points) true.

(** ** Arithmetic as Python has it *)

(** [a / b] on floats raises [ZeroDivisionError] when [b == 0]. *)
Definition py_div (a b : Q) : option Q :=
  if Qeq_bool b 0 then None else Some (a / b).

(** [a < b] *)
Definition Qlt_bool (a b : Q) : bool := negb (Qle_bool b a).

(** ** The slider and button callbacks *)

Definition update_mass (s : SpringMassSystem) (value : Q)
  : SpringMassSystem := set_mass s value.

Definition update_resilience (s : SpringMassSystem) (value : Q)
  : SpringMassSystem :=
  set_resilience s value.

Definition update_damping (s : SpringMassSystem) (value : Q)
  : SpringMassSystem :=
  set_damping s value.

Definition update_time_modifier (s : SpringMassSystem) (value : Q)
  : SpringMassSystem :=
  set_time_modifier s value.

(** [reset(event)]: the statements are kept in the order of the source. *)
Definition reset (s : SpringMassSystem) : SpringMassSystem :=
  let s := set_x_position s default_x_pos in
  let s := set_velocity s 0.0 in
  let s := set_current_time s 0 in
  let s := set_time_data s (Deque.clear (time_data s)) in
  let s := set_velocity_data s (Deque.clear (velocity_data s)) in
  set_velocity_plot_active s true.

(** ** One animation frame: [update(frame)] *)

Definition update (s : SpringMassSystem) : option SpringMassSystem :=
  acceleration <-
    py_div (- resilience s * x_position s - damping s * velocity s) (mass s) ;;
  let effective_dt := dt s * time_modifier s in
  let s := set_velocity s (velocity s + acceleration * effective_dt) in
  let s := set_x_position s (x_position s + velocity s * effective_dt) in
  let s := set_current_time s (current_time s + effective_dt) in
  let s :=
    if velocity_plot_active s then
      if Qle_bool (current_time s) 10 then
        let s :=
          set_time_data s (Deque.append (time_data s) (current_time s)) in
        set_velocity_data s (Deque.append (velocity_data s) (velocity s))
      else set_velocity_plot_active s false
    else s in
  Some s.

(** The artists returned by [update] are drawn from [x_position] through
    [create_spring] (see [Geometry] below); drawing does not change the
    state. *)

(** [n] consecutive frames. *)
Fixpoint ticks (n : nat) (s : SpringMassSystem) : option SpringMassSystem :=
  match n with
  | O => Some s
  | S n' => s' <- ticks n' s ;; update s'
  end.

(** ** What the event loop delivers *)

Inductive Event : Type :=
  | Frame
  | ResetClicked
  | MassChanged (value : Q)
  | ResilienceChanged (value : Q)
  | DampingChanged (value : Q)
  | TimeChanged (value : Q).

Definition handle (s : SpringMassSystem) (e : Event)
  : option SpringMassSystem :=
  match e with
  | Frame => update s
  | ResetClicked => Some (reset s)
  | MassChanged v => Some (update_mass s v)
  | ResilienceChanged v => Some (update_resilience s v)
  | DampingChanged v => Some (update_damping s v)
  | TimeChanged v => Some (update_time_modifier s v)
  end.

Fixpoint run (s : SpringMassSystem) (es : list Event)
  : option SpringMassSystem :=
  match es with
  | [] => Some s
  | e :: es' => s' <- handle s e ;; run s' es'
  end.

(** ** Cursor inspection: [on_mouse_move(event)] *)

(** [min(l)]: the first element is kept until a strictly smaller one is
    met; [ValueError] on an empty list. *)
Fixpoint py_min_from (cur : Q) (l : list Q) : Q :=
  match l with
  | [] => cur
  | d :: l' => py_min_from (if Qlt_bool d cur then d else cur) l'
  end.

Definition py_min (l : list Q) : option Q :=
  match l with
  | [] => None
  | d :: l' => Some (py_min_from d l')
  end.

(** [l.index(m)]: the first position holding a value equal to [m];
    [ValueError] when there is none. *)
Fixpoint py_index (l : list Q) (m : Q) : option nat :=
  match l with
  | [] => None
  | d :: l' =>
      if Qeq_bool d m then Some O
      else i <- py_index l' m ;; Some (S i)
  end.

(** [not l] *)
Definition py_not {A : Type} (l : list A) : bool :=
  match l with
  | [] => true
  | _ :: _ => false
  end.

(** The part of a mouse event the handler reads: whether the pointer is
    over the velocity plot, and its abscissa there. *)
Record MouseEvent : Type := mkMouseEvent {
  inaxes_velocity_plot : bool;
  xdata : Q
}.

(** What the handler leaves on the plot: the marker hidden, or the marker
    and its label at one recorded sample. *)
Inductive Cursor : Type :=
  | Hidden
  | Shown (time vel : Q).

(** The branch taken when the pointer is over the velocity plot. *)
Definition cursor_at (line_x line_y : list Q) (x : Q) : option Cursor :=
  if py_not line_x || py_not line_y then Some Hidden
  else
    let distances := map (fun x_point => Qabs (x_point - x)) line_x in
    m <- py_min distances ;;
    nearest_idx <- py_index distances m ;;
    px <- nth_error line_x nearest_idx ;;
    py <- nth_error line_y nearest_idx ;;
    Some (Shown px py).

Definition on_mouse_move (s : SpringMassSystem) (event : MouseEvent)
  : option Cursor :=
  if inaxes_velocity_plot event then
    cursor_at (Deque.to_list (time_data s))
              (Deque.to_list (velocity_data s)) (xdata event)
  else Some Hidden.

(** ** The coil drawn between the anchor and the mass: [create_spring(x)] *)

Module Geometry.

Import Reals.
Local Open Scope R_scope.

(** [l[-1] = v] *)
Fixpoint set_last (l : list R) (v : R) : list R :=
  match l with
  | [] => []
  | [_] => [v]
  | a :: l' => a :: set_last l' v
  end.

(** [np.linspace(start, stop, num)] for [num >= 1], end point included:
    [arange(0, num) * step + start] with [step = (stop - start) / (num - 1)],
    after which the last sample is overwritten with [stop] when
    [num > 1]. *)
Definition linspace (start stop : R) (num : nat) : list R :=
  let step := (stop - start) / INR (num - 1) in
  let y := map (fun i => INR i * step + start) (seq 0 num) in
  if (1 <? num)%nat then set_last y stop else y.

Definition create_spring (x : R) : list R * list R :=
  let num_coils := 6 in
  let coil_radius := 0.2 in
  let t := linspace 0 1 100 in
  let spring_x := map (fun ti => ti * x) t in
  let spring_y :=
    map (fun ti => coil_radius * sin (2 * PI * num_coils * ti)) t in
  (spring_x, spring_y).

(** The curve [update] hands to the spring artist. *)
Definition spring_of (s : SpringMassSystem) : list R * list R :=
  create_spring (Q2R (x_position s)).

End Geometry.

(** ** The figure: what the handlers leave in the artists *)

Module Gui.

(** The data the handlers store in the artists created by [setup_plot].
    The label of the cursor is kept as the two numbers it prints. *)
Record Plot : Type := mkPlot {
  velocity_line : list Q * list Q;
  spring : list Rdefinitions.R * list Rdefinitions.R;
  mass_point : list Q * list Q;
  cursor_point : list Q * list Q;
  cursor_point_visible : bool;
  cursor_text : option (Q * Q);
  cursor_text_visible : bool;
  velocity_xlim : Q * Q
}.

(** [artist.set_data(...)], [artist.set_visible(...)], [set_text],
    [set_xlim]. *)

Definition set_velocity_line (p : Plot) (d : list Q * list Q) : Plot :=
  mkPlot d (spring p) (mass_point p) (cursor_point p)
         (cursor_point_visible p) (cursor_text p) (cursor_text_visible p)
         (velocity_xlim p).

Definition set_spring (p : Plot)
    (d : list Rdefinitions.R * list Rdefinitions.R) : Plot :=
  mkPlot (velocity_line p) d (mass_point p) (cursor_point p)
         (cursor_point_visible p) (cursor_text p) (cursor_text_visible p)
         (velocity_xlim p).

Definition set_mass_point (p : Plot) (d : list Q * list Q) : Plot :=
  mkPlot (velocity_line p) (spring p) d (cursor_point p)
         (cursor_point_visible p) (cursor_text p) (cursor_text_visible p)
         (velocity_xlim p).

Definition set_cursor_point (p : Plot) (d : list Q * list Q) : Plot :=
  mkPlot (velocity_line p) (spring p) (mass_point p) d
         (cursor_point_visible p) (cursor_text p) (cursor_text_visible p)
         (velocity_xlim p).

Definition set_cursor_point_visible (p : Plot) (b : bool) : Plot :=
  mkPlot (velocity_line p) (spring p) (mass_point p) (cursor_point p)
         b (cursor_text p) (cursor_text_visible p) (velocity_xlim p).

Definition set_cursor_text (p : Plot) (label : option (Q * Q)) : Plot :=
  mkPlot (velocity_line p) (spring p) (mass_point p) (cursor_point p)
         (cursor_point_visible p) label (cursor_text_visible p)
         (velocity_xlim p).

Definition set_cursor_text_visible (p : Plot) (b : bool) : Plot :=
  mkPlot (velocity_line p) (spring p) (mass_point p) (cursor_point p)
         (cursor_point_visible p) (cursor_text p) b (velocity_xlim p).

Definition set_velocity_xlim (p : Plot) (lim : Q * Q) : Plot :=
  mkPlot (velocity_line p) (spring p) (mass_point p) (cursor_point p)
         (cursor_point_visible p) (cursor_text p) (cursor_text_visible p)
         lim.

(** [setup_plot]: every line is created empty and the label with an empty
    text; artists are visible when created. *)
Definition setup_plot : Plot :=
  mkPlot ([], []) ([], []) ([], []) ([], []) true None true (0, 10).

(** The object: its attributes and its artists. *)
Record t : Type := mk { system : SpringMassSystem; plot : Plot }.

(** [SpringMassSystem()] *)
Definition init : t := mk init setup_plot.

(** The slider callbacks touch no artist. *)
Definition update_mass (g : t) (value : Q) : t :=
  mk (update_mass (system g) value) (plot g).

Definition update_resilience (g : t) (value : Q) : t :=
  mk (update_resilience (system g) value) (plot g).

Definition update_damping (g : t) (value : Q) : t :=
  mk (update_damping (system g) value) (plot g).

Definition update_time_modifier (g : t) (value : Q) : t :=
  mk (update_time_modifier (system g) value) (plot g).

(** [reset(event)], artists included. *)
Definition reset (g : t) : t :=
  let s := system g in
  let p := plot g in
  let s := set_x_position s default_x_pos in
  let s := set_velocity s 0.0 in
  let s := set_current_time s 0 in
  let s := set_time_data s (Deque.clear (time_data s)) in
  let s := set_velocity_data s (Deque.clear (velocity_data s)) in
  let p := set_velocity_xlim p (0, 10) in
  let s := set_velocity_plot_active s true in
  let p := set_velocity_line p ([], []) in
  let p := set_cursor_point_visible p false in
  let p := set_cursor_text_visible p false in
  mk s p.

(** [update(frame)], artists included. *)
Definition update (g : t) : option t :=
  let s := system g in
  let p := plot g in
  acceleration <-
    py_div (- resilience s * x_position s - damping s * velocity s) (mass s) ;;
  let effective_dt := dt s * time_modifier s in
  let s := set_velocity s (velocity s + acceleration * effective_dt) in
  let s := set_x_position s (x_position s + velocity s * effective_dt) in
  let s := set_current_time s (current_time s + effective_dt) in
  let sp :=
    if velocity_plot_active s then
      if Qle_bool (current_time s) 10 then
        let s :=
          set_time_data s (Deque.append (time_data s) (current_time s)) in
        let s :=
          set_velocity_data s (Deque.append (velocity_data s) (velocity s)) in
        (s, set_velocity_line p (Deque.to_list (time_data s),
                                 Deque.to_list (velocity_data s)))
      else (set_velocity_plot_active s false, p)
    else (s, p) in
  let s := fst sp in
  let p := snd sp in
  let p := set_spring p (Geometry.create_spring
                           (Rdefinitions.Q2R (x_position s))) in
  let p := set_mass_point p ([x_position s], [0]) in
  Some (mk s p).

(** [on_mouse_move(event)], artists included. *)
Definition on_mouse_move (g : t) (event : MouseEvent) : option t :=
  let s := system g in
  let p := plot g in
  if inaxes_velocity_plot event then
    let line_x := Deque.to_list (time_data s) in
    let line_y := Deque.to_list (velocity_data s) in
    if py_not line_x || py_not line_y then
      let p := set_cursor_point_visible p false in
      let p := set_cursor_text_visible p false in
      Some (mk s p)
    else
      let x := xdata event in
      let distances := map (fun x_point => Qabs (x_point - x)) line_x in
      m <- py_min distances ;;
      nearest_idx <- py_index distances m ;;
      px <- nth_error line_x nearest_idx ;;
      py <- nth_error line_y nearest_idx ;;
      let p := set_cursor_point p ([px], [py]) in
      let p := set_cursor_point_visible p true in
      tx <- nth_error line_x nearest_idx ;;
      ty <- nth_error line_y nearest_idx ;;
      let p := set_cursor_text p (Some (tx, ty)) in
      let p := set_cursor_text_visible p true in
      Some (mk s p)
  else
    let p := set_cursor_point_visible p false in
    let p := set_cursor_text_visible p false in
    Some (mk s p).

(** What the event loop delivers to the object: the events of the
    controller, and mouse moves. *)
Inductive Input : Type :=
  | Core (e : Event)
  | MouseMoved (event : MouseEvent).

Definition handle (g : t) (i : Input) : option t :=
  match i with
  | Core Frame => update g
  | Core ResetClicked => Some (reset g)
  | Core (MassChanged v) => Some (update_mass g v)
  | Core (ResilienceChanged v) => Some (update_resilience g v)
  | Core (DampingChanged v) => Some (update_damping g v)
  | Core (TimeChanged v) => Some (update_time_modifier g v)
  | MouseMoved event => on_mouse_move g event
  end.

Fixpoint run (g : t) (ins : list Input) : option t :=
  match ins with
  | [] => Some g
  | i :: ins' => g' <- handle g i ;; run g' ins'
  end.

(** The events of the controller among the inputs. *)
Fixpoint core_events (ins : list Input) : list Event :=
  match ins with
  | [] => []
  | Core e :: ins' => e :: core_events ins'
  | MouseMoved _ :: ins' => core_events ins'
  end.

End Gui.

(** ** Vocabulary of the statements *)

(** The state [update] returns, written from the state it was called on. *)
Definition after_frame (s : SpringMassSystem) : SpringMassSystem :=
  let acceleration :=
    (- resilience s * x_position s - damping s * velocity s) / mass s in
  let effective_dt := dt s * time_modifier s in
  let v' := velocity s + acceleration * effective_dt in
  let x' := x_position s + v' * effective_dt in
  let t' := current_time s + effective_dt in
  let recording := velocity_plot_active s && Qle_bool t' 10 in
  mkSystem (mass s) (resilience s) (damping s) t' (dt s) (time_modifier s)
          x' v'
          (if recording then Deque.append (time_data s) t' else time_data s)
          (if recording then Deque.append (velocity_data s) v'
           else velocity_data s)
          recording.

(** The physical part of the state: position, velocity, elapsed time. *)
Definition physical (s : SpringMassSystem) : Q * Q * Q :=
  (x_position s, velocity s, current_time s).

(** The states reached after 1, 2, ..., [n] frames, as long as [update]
    returns. *)
Fixpoint trajectory (n : nat) (s : SpringMassSystem) : list SpringMassSystem :=
  match n with
  | O => []
  | S n' =>
      match update s with
      | Some s' => s' :: trajectory n' s'
      | None => []
      end
  end.

(** The initial state with the four sliders moved. *)
Definition configure (m k c ts : Q) : SpringMassSystem :=
  update_time_modifier
    (update_damping (update_resilience (update_mass init m) k) c) ts.

(** The values the four sliders of [setup_sliders] can deliver: each lies
    between the [valmin] and [valmax] of its slider. *)
Definition slider_event (e : Event) : Prop :=
  match e with
  | TimeChanged v => 0.1 <= v <= 2.0
  | MassChanged v => 0.1 <= v <= 5.0
  | ResilienceChanged v => 1.0 <= v <= 30.0
  | DampingChanged v => 0.0 <= v <= 2.0
  | Frame | ResetClicked => True
  end.

(** All that the order of the recorded times needs from the events: the
    speed is never set to a negative value. *)
Definition time_forward (e : Event) : Prop :=
  match e with
  | TimeChanged v => 0 <= v
  | _ => True
  end.

(** The two deques of a state hold the samples of [h], oldest first. *)
Definition holds_history (s : SpringMassSystem) (h : list (Q * Q)) : Prop :=
  Deque.to_list (time_data s) = map fst h /\
  Deque.to_list (velocity_data s) = map snd h.

(** Two states agree on everything the integration step reads. *)
Definition same_motion (s r : SpringMassSystem) : Prop :=
  physical s = physical r /\ mass s = mass r /\
  resilience s = resilience r /\ damping s = damping r /\
  dt s = dt r /\ time_modifier s = time_modifier r.

(** The samples in the two deques are the elapsed times and the velocities
    of one list of states, oldest first. *)
Definition recorded_by (s : SpringMassSystem) (rs : list SpringMassSystem)
  : Prop :=
  Deque.to_list (time_data s) = map current_time rs /\
  Deque.to_list (velocity_data s) = map velocity rs.

(** A run that leaves the recording horizon: at 200 times the normal speed
    a frame lasts 4 s, so the third frame ends at 12 s. *)
Definition overrun : list Event := [TimeChanged 200; Frame; Frame; Frame].

Definition after_overrun : SpringMassSystem :=
  after_frame (after_frame (after_frame (update_time_modifier init 200))).

(** What every reachable state satisfies: both deques have the capacity
    [max_points], hold at most that many samples, and were filled by the
    same frames. *)
Definition well_formed (s : SpringMassSystem) : Prop :=
  Deque.maxlen (time_data s) = max_points /\
  Deque.maxlen (velocity_data s) = max_points /\
  (length (Deque.to_list (time_data s)) <= max_points)%nat /\
  exists rs, recorded_by s rs.

(** Time runs forwards: the step and the speed are not negative, the
    recorded times are in non-decreasing order, and none is later than the
    elapsed time. *)
Definition time_ordered (s : SpringMassSystem) : Prop :=
  0 <= dt s /\ 0 <= time_modifier s /\
  StronglySorted Qle (Deque.to_list (time_data s)) /\
  Forall (fun t => t <= current_time s) (Deque.to_list (time_data s)).

(** The history of the lookup examples, and a state holding it. *)
Definition sample_history : list (Q * Q) := [(0, 0); (1, 5); (2, -5)].

Definition sample_state : SpringMassSystem :=
  set_velocity_data
    (set_time_data init (Deque.make max_points (map fst sample_history)))
    (Deque.make max_points (map snd sample_history)).

(** The four parameters lie within the ranges of their sliders. *)
Definition params_in_range (s : SpringMassSystem) : Prop :=
  (0.1 <= mass s <= 5.0) /\ (1.0 <= resilience s <= 30.0) /\
  (0.0 <= damping s <= 2.0) /\ (0.1 <= time_modifier s <= 2.0).

(** The quantity the integration step of [update] keeps when there is no
    damping: twice the mechanical energy, [m v^2 + k x^2], less a cross term
    of the size of one time step. *)
Definition shadow_energy (s : SpringMassSystem) : Q :=
  mass s * (velocity s * velocity s) +
  resilience s * (x_position s * x_position s) -
  dt s * time_modifier s * resilience s * (x_position s * velocity s).

(** Time runs forwards and the recording flag says whether the elapsed time
    is still within the 10 s of the velocity plot. *)
Definition flag_tracks_time (s : SpringMassSystem) : Prop :=
  0 <= dt s /\ 0 <= time_modifier s /\
  (velocity_plot_active s = true <-> current_time s <= 10).

(** The plotted velocity line shows what the two deques hold. *)
Definition line_mirrors_history (g : Gui.t) : Prop :=
  Gui.velocity_line (Gui.plot g) =
  (Deque.to_list (time_data (Gui.system g)),
   Deque.to_list (velocity_data (Gui.system g))).

(** The marker and its label are shown or hidden together, and a label
    that has been written names the sample the marker sits on. *)
Definition cursor_consistent (g : Gui.t) : Prop :=
  Gui.cursor_point_visible (Gui.plot g) =
  Gui.cursor_text_visible (Gui.plot g) /\
  forall t v, Gui.cursor_text (Gui.plot g) = Some (t, v) ->
              Gui.cursor_point (Gui.plot g) = ([t], [v]).

(** Time has only run forwards since the last reset, and every recorded
    time lies within the 10 s the velocity plot shows. *)
Definition within_window (s : SpringMassSystem) : Prop :=
  0 <= dt s /\ 0 <= time_modifier s /\ 0 <= current_time s /\
  Forall (fun t => 0 <= t <= 10) (Deque.to_list (time_data s)).

(** Time runs strictly forwards: the step and the speed are positive, the
    recorded times increase strictly, and none is later than the elapsed
    time. *)
Definition strictly_ordered (s : SpringMassSystem) : Prop :=
  0 < dt s /\ 0 < time_modifier s /\
  StronglySorted Qlt (Deque.to_list (time_data s)) /\
  Forall (fun t => t <= current_time s) (Deque.to_list (time_data s)).

(** * Properties *)

Local Open Scope Q_scope.

(** ** Division and comparison *)

Lemma py_div_nonzero (a b : Q) : ~ b == 0 -> py_div a b = Some (a / b).
Proof.
  intros Hb. unfold py_div.
  destruct (Qeq_bool b 0) eqn:E; [|reflexivity].
  apply Qeq_bool_iff in E. contradiction.
Qed.

Lemma py_div_zero (a b : Q) : b == 0 -> py_div a b = None.
Proof.
  intros Hb. unfold py_div.
  apply Qeq_bool_iff in Hb. now rewrite Hb.
Qed.

Lemma Qlt_bool_iff (a b : Q) : Qlt_bool a b = true <-> a < b.
Proof.
  unfold Qlt_bool. rewrite negb_true_iff.
  split; intros H.
  - apply Qnot_le_lt. intros Hle. apply Qle_bool_iff in Hle. congruence.
  - destruct (Qle_bool b a) eqn:E; [|reflexivity].
    apply Qle_bool_iff in E. exfalso. revert E. now apply Qlt_not_le.
Qed.

Lemma Qle_bool_false_iff (a b : Q) : Qle_bool a b = false <-> b < a.
Proof.
  rewrite <- Qlt_bool_iff. unfold Qlt_bool. now rewrite negb_true_iff.
Qed.

(** ** One frame, in closed form *)

Lemma update_after_frame (s : SpringMassSystem) :
  ~ mass s == 0 -> update s = Some (after_frame s).
Proof.
  intros Hm. unfold update.
  rewrite (py_div_nonzero _ _ Hm). unfold bind, after_frame.
  cbv [set_velocity set_x_position set_current_time set_time_data
       set_velocity_data set_velocity_plot_active]. cbn.
  destruct (velocity_plot_active s) eqn:Ha; cbn; [|reflexivity].
  destruct (Qle_bool _ 10); cbn; rewrite ?Ha; reflexivity.
Qed.

Lemma update_mass_zero (s : SpringMassSystem) : mass s == 0 -> update s = None.
Proof.
  intros Hm. unfold update. now rewrite (py_div_zero _ _ Hm).
Qed.

Lemma update_Some_inv (s s' : SpringMassSystem) :
  update s = Some s' -> ~ mass s == 0 /\ s' = after_frame s.
Proof.
  intros H.
  destruct (Qeq_bool (mass s) 0) eqn:E.
  - apply Qeq_bool_iff in E. rewrite (update_mass_zero _ E) in H. discriminate.
  - apply Qeq_bool_neq in E. rewrite (update_after_frame _ E) in H.
    split; [assumption | congruence].
Qed.

(** [update] never touches the parameters. *)
Lemma update_params (s s' : SpringMassSystem) :
  update s = Some s' ->
  mass s' = mass s /\ resilience s' = resilience s /\
  damping s' = damping s /\ time_modifier s' = time_modifier s /\
  dt s' = dt s.
Proof.
  intros H. apply update_Some_inv in H as [_ ->]. now cbn.
Qed.

Lemma ticks_S_inv (n : nat) (s s' : SpringMassSystem) :
  ticks (S n) s = Some s' ->
  exists s1, ticks n s = Some s1 /\ update s1 = Some s'.
Proof.
  cbn. destruct (ticks n s) as [s1|]; cbn; [|discriminate].
  intros H. now exists s1.
Qed.

Lemma ticks_params (n : nat) (s s' : SpringMassSystem) :
  ticks n s = Some s' ->
  mass s' = mass s /\ resilience s' = resilience s /\
  damping s' = damping s /\ time_modifier s' = time_modifier s /\
  dt s' = dt s.
Proof.
  revert s'. induction n as [|n IH]; intros s' H.
  - cbn in H. injection H as <-. now repeat split.
  - apply ticks_S_inv in H as (s1 & H1 & H2).
    apply IH in H1 as (E1 & E2 & E3 & E4 & E5).
    apply update_params in H2 as (F1 & F2 & F3 & F4 & F5).
    repeat split; congruence.
Qed.

(** With a mass that is not zero every frame returns. *)
Lemma ticks_total (n : nat) (s : SpringMassSystem) :
  ~ mass s == 0 -> exists s', ticks n s = Some s'.
Proof.
  intros Hm. induction n as [|n [s1 H1]].
  - now exists s.
  - destruct (ticks_params _ _ _ H1) as (Hm1 & _).
    exists (after_frame s1). cbn. rewrite H1. cbn.
    apply update_after_frame. now rewrite Hm1.
Qed.

(** The first frame from the initial state. *)
Example first_frame :
  exists s', update init = Some s' /\
    velocity s' == -0.4 /\ x_position s' == 1.992 /\
    current_time s' == 0.02 /\
    Deque.items (time_data s') = [current_time s'] /\
    Deque.items (velocity_data s') = [velocity s'].
Proof.
  eexists. split; [vm_compute; reflexivity|].
  repeat split; vm_compute; reflexivity.
Qed.

(** ** The integration step *)

(** C1.  One call of [update] on a state whose mass is not zero returns, and
    the state it returns is obtained in this order: the acceleration is
    computed from the position and velocity the call started with,
    [effective_dt] is [dt * time_modifier], the velocity grows by
    [acceleration * effective_dt], the position grows by the NEW velocity
    times [effective_dt], and the elapsed time grows by [effective_dt].
    The parameters are left as they were. *)
Theorem update_euler_order (s : SpringMassSystem) (Hmass : ~ mass s == 0) :
  let acceleration :=
    (- resilience s * x_position s - damping s * velocity s) / mass s in
  let effective_dt := dt s * time_modifier s in
  exists s',
    update s = Some s' /\
    velocity s' = velocity s + acceleration * effective_dt /\
    x_position s' = x_position s + velocity s' * effective_dt /\
    current_time s' = current_time s + effective_dt /\
    mass s' = mass s /\ resilience s' = resilience s /\
    damping s' = damping s /\ time_modifier s' = time_modifier s /\
    dt s' = dt s.
Proof.
  intros acceleration effective_dt.
  exists (after_frame s). split.
  - now apply update_after_frame.
  - cbn. repeat split; reflexivity.
Qed.

Lemma update_euler_order_witness :
  exists s',
    update init = Some s' /\
    velocity s' == -0.4 /\ x_position s' == 1.992 /\ current_time s' == 0.02.
Proof.
  destruct (update_euler_order init) as (s' & Hu & Hv & Hx & Ht & _).
  - vm_compute. discriminate.
  - exists s'. split; [exact Hu|].
    rewrite Hx, Hv, Ht. repeat split; vm_compute; reflexivity.
Defined.

(** The position update really uses the new velocity: with the old one the
    first frame would leave the mass where it was. *)
Example position_uses_new_velocity :
  exists s', update init = Some s' /\
    ~ x_position s' ==
      x_position init + velocity init * (dt init * time_modifier init).
Proof.
  eexists. split; [vm_compute; reflexivity|].
  vm_compute. discriminate.
Qed.

(** ** Reset *)

(** C4.  From every state, [reset] puts the position at the configured
    default 2.0, the velocity and the elapsed time at 0, empties both
    deques of the history, switches recording on, and leaves the mass, the
    resilience, the damping and the time modifier as they were. *)
Theorem reset_restores_defaults (s : SpringMassSystem) :
  x_position (reset s) = default_x_pos /\ default_x_pos == 2 /\
  velocity (reset s) == 0 /\
  current_time (reset s) = 0 /\
  Deque.to_list (time_data (reset s)) = [] /\
  Deque.to_list (velocity_data (reset s)) = [] /\
  velocity_plot_active (reset s) = true /\
  mass (reset s) = mass s /\
  resilience (reset s) = resilience s /\
  damping (reset s) = damping s /\
  time_modifier (reset s) = time_modifier s.
Proof.
  cbn. repeat split; reflexivity.
Qed.

(** [reset] keeps the capacity of the deques and the time step as well. *)
Lemma reset_keeps_capacity (s : SpringMassSystem) :
  Deque.maxlen (time_data (reset s)) = Deque.maxlen (time_data s) /\
  Deque.maxlen (velocity_data (reset s)) = Deque.maxlen (velocity_data s) /\
  dt (reset s) = dt s.
Proof.
  cbn. repeat split; reflexivity.
Qed.

(** ** The parameter setters *)

(** C8, as the claim has it, fails: [update_mass] called with -1 on the
    initial state does not raise, and the mass afterwards is -1, not the
    previous 1.0. *)
Lemma update_mass_stores_invalid :
  -1 <= 0 /\
  handle init (MassChanged (-1)) = Some (update_mass init (-1)) /\
  handle init (MassChanged (-1)) <> None /\
  mass (update_mass init (-1)) = -1 /\
  ~ mass (update_mass init (-1)) == mass init.
Proof.
  split; [vm_compute; discriminate|].
  split; [reflexivity|].
  split; [discriminate|].
  split; [reflexivity|].
  vm_compute. discriminate.
Qed.

(** C8, amended.  Each of the four setters returns without raising for
    every value, stores that value in its attribute, and changes no other
    attribute; nothing is validated. *)
Theorem setters_store_any_value (s : SpringMassSystem) (v : Q) :
  (handle s (MassChanged v) = Some (update_mass s v) /\
   update_mass s v =
     mkSystem v (resilience s) (damping s) (current_time s) (dt s)
       (time_modifier s) (x_position s) (velocity s) (time_data s)
       (velocity_data s) (velocity_plot_active s)) /\
  (handle s (ResilienceChanged v) = Some (update_resilience s v) /\
   update_resilience s v =
     mkSystem (mass s) v (damping s) (current_time s) (dt s)
       (time_modifier s) (x_position s) (velocity s) (time_data s)
       (velocity_data s) (velocity_plot_active s)) /\
  (handle s (DampingChanged v) = Some (update_damping s v) /\
   update_damping s v =
     mkSystem (mass s) (resilience s) v (current_time s) (dt s)
       (time_modifier s) (x_position s) (velocity s) (time_data s)
       (velocity_data s) (velocity_plot_active s)) /\
  (handle s (TimeChanged v) = Some (update_time_modifier s v) /\
   update_time_modifier s v =
     mkSystem (mass s) (resilience s) (damping s) (current_time s) (dt s)
       v (x_position s) (velocity s) (time_data s)
       (velocity_data s) (velocity_plot_active s)).
Proof.
  repeat split; reflexivity.
Qed.

(** A mass of zero is stored like any other value; it is the next frame
    that fails, on the division. *)
Lemma zero_mass_fails_at_next_frame (s : SpringMassSystem) :
  mass (update_mass s 0) = 0 /\ update (update_mass s 0) = None.
Proof.
  split; [reflexivity|]. now apply update_mass_zero.
Qed.

(** ** Frames seen from both ends *)

Lemma ticks_S_front (n : nat) (s : SpringMassSystem) :
  ticks (S n) s = (s1 <- update s ;; ticks n s1).
Proof.
  induction n as [|n IH].
  - cbn. now destruct (update s).
  - change (ticks (S (S n)) s) with (s' <- ticks (S n) s ;; update s').
    rewrite IH. destruct (update s) as [s1|]; reflexivity.
Qed.

Lemma trajectory_length (n : nat) (s s_n : SpringMassSystem) :
  ticks n s = Some s_n -> length (trajectory n s) = n.
Proof.
  revert s. induction n as [|n IH]; intros s H; [reflexivity|].
  rewrite ticks_S_front in H. cbn.
  destruct (update s) as [s1|]; [|discriminate].
  cbn in *. f_equal. now apply IH.
Qed.

Lemma trajectory_snoc (n : nat) (s s_n s' : SpringMassSystem) :
  ticks n s = Some s_n -> update s_n = Some s' ->
  trajectory (S n) s = trajectory n s ++ [s'].
Proof.
  revert s. induction n as [|n IH]; intros s Hn Hu.
  - cbn in Hn. injection Hn as ->. cbn. now rewrite Hu.
  - rewrite ticks_S_front in Hn.
    change (trajectory (S (S n)) s)
      with (match update s with
            | Some s1 => s1 :: trajectory (S n) s1
            | None => []
            end).
    change (trajectory (S n) s)
      with (match update s with
            | Some s1 => s1 :: trajectory n s1
            | None => []
            end).
    destruct (update s) as [s1|]; [|discriminate].
    cbn in Hn. rewrite (IH s1 Hn Hu). reflexivity.
Qed.

(** The elapsed time after [n] frames. *)
Lemma ticks_current_time (n : nat) (s s_n : SpringMassSystem) :
  ticks n s = Some s_n ->
  current_time s_n ==
  current_time s + inject_Z (Z.of_nat n) * (dt s * time_modifier s).
Proof.
  revert s_n. induction n as [|n IH]; intros s_n H.
  - cbn in H. injection H as <-. cbn. ring.
  - apply ticks_S_inv in H as (s1 & H1 & H2).
    destruct (ticks_params _ _ _ H1) as (_ & _ & _ & Etm & Edt).
    apply update_Some_inv in H2 as [_ ->]. cbn [after_frame current_time].
    rewrite (IH _ H1), Etm, Edt.
    rewrite Nat2Z.inj_succ. unfold Z.succ. rewrite inject_Z_plus.
    change (inject_Z 1) with 1. ring.
Qed.

(** ** The recording flag *)

Lemma Event_eq_ResetClicked_dec (e : Event) :
  {e = ResetClicked} + {e <> ResetClicked}.
Proof.
  destruct e; (now left) || (right; discriminate).
Qed.

Lemma update_flag (s s' : SpringMassSystem) :
  update s = Some s' ->
  velocity_plot_active s' =
  velocity_plot_active s && Qle_bool (current_time s') 10.
Proof.
  intros H. apply update_Some_inv in H as [_ ->]. reflexivity.
Qed.

Lemma update_frozen (s s' : SpringMassSystem) :
  update s = Some s' -> velocity_plot_active s = false ->
  velocity_plot_active s' = false /\
  time_data s' = time_data s /\ velocity_data s' = velocity_data s.
Proof.
  intros H Hf. apply update_Some_inv in H as [_ ->].
  cbn. rewrite Hf. cbn. now repeat split.
Qed.

Lemma handle_frozen (s s' : SpringMassSystem) (e : Event) :
  handle s e = Some s' -> velocity_plot_active s = false ->
  e <> ResetClicked ->
  velocity_plot_active s' = false /\
  time_data s' = time_data s /\ velocity_data s' = velocity_data s.
Proof.
  intros H Hf He. destruct e; cbn in H.
  - now apply update_frozen.
  - congruence.
  - injection H as <-. now cbn.
  - injection H as <-. now cbn.
  - injection H as <-. now cbn.
  - injection H as <-. now cbn.
Qed.

Lemma run_frozen (es : list Event) (s s' : SpringMassSystem) :
  velocity_plot_active s = false -> ~ In ResetClicked es ->
  run s es = Some s' ->
  velocity_plot_active s' = false /\
  time_data s' = time_data s /\ velocity_data s' = velocity_data s.
Proof.
  revert s. induction es as [|e es IH]; intros s Hf Hno H.
  - cbn in H. injection H as <-. now repeat split.
  - cbn in H. destruct (handle s e) as [s1|] eqn:He; [|discriminate].
    cbn in H.
    assert (Hne : e <> ResetClicked) by (intros ->; apply Hno; now left).
    destruct (handle_frozen _ _ _ He Hf Hne) as (Hf1 & Ht1 & Hv1).
    destruct (IH s1 Hf1 (fun Hin => Hno (or_intror Hin)) H)
      as (Hf' & Ht' & Hv').
    repeat split; congruence.
Qed.

Lemma ticks_active_iff (n : nat) (s s_n : SpringMassSystem) :
  velocity_plot_active s = true -> ticks n s = Some s_n ->
  (velocity_plot_active s_n = true <->
   Forall (fun s_i => current_time s_i <= 10) (trajectory n s)).
Proof.
  intros Ha. revert s_n. induction n as [|n IH]; intros s_n H.
  - cbn in H. injection H as <-. cbn. split; [constructor | now intros].
  - apply ticks_S_inv in H as (s1 & H1 & H2).
    rewrite (trajectory_snoc _ _ _ _ H1 H2), Forall_app.
    rewrite (update_flag _ _ H2), andb_true_iff, (IH _ H1), Qle_bool_iff.
    split.
    + intros [Hall Hle]. split; [exact Hall|]. now repeat constructor.
    + intros [Hall Hle]. split; [exact Hall|]. now inversion Hle.
Qed.

(** C2.  The recording flag is a two-state machine.  It is true in the
    initial state.  A frame leaves it true exactly when it was true and the
    elapsed time after the step is at most 10; so it goes from true to
    false only in a frame whose elapsed time after the step exceeds 10, and
    over a run of frames it is still true exactly when no frame so far
    ended above 10.  From false it returns to true only through [reset],
    which always sets it.  Once it is false, no sequence of frames and
    slider changes without a reset alters the two history deques or the
    flag. *)
Theorem recording_flag_machine :
  velocity_plot_active init = true /\
  (forall s s', update s = Some s' ->
     (velocity_plot_active s' = true <->
      velocity_plot_active s = true /\ current_time s' <= 10)) /\
  (forall s e s', handle s e = Some s' ->
     velocity_plot_active s = true -> velocity_plot_active s' = false ->
     e = Frame /\ 10 < current_time s') /\
  (forall n s s_n, velocity_plot_active s = true -> ticks n s = Some s_n ->
     (velocity_plot_active s_n = true <->
      Forall (fun s_i => current_time s_i <= 10) (trajectory n s))) /\
  (forall s e s', handle s e = Some s' ->
     velocity_plot_active s = false -> velocity_plot_active s' = true ->
     e = ResetClicked) /\
  (forall s, velocity_plot_active (reset s) = true) /\
  (forall es s s', velocity_plot_active s = false -> ~ In ResetClicked es ->
     run s es = Some s' ->
     velocity_plot_active s' = false /\
     time_data s' = time_data s /\ velocity_data s' = velocity_data s).
Proof.
  split; [reflexivity|].
  split.
  { intros s s' H. rewrite (update_flag _ _ H), andb_true_iff, Qle_bool_iff.
    reflexivity. }
  split.
  { intros s e s' H Ha Hf. destruct e; cbn in H;
      try (injection H as <-; cbn in Hf; congruence).
    split; [reflexivity|].
    rewrite (update_flag _ _ H), Ha in Hf. cbn in Hf.
    now apply Qle_bool_false_iff. }
  split; [exact ticks_active_iff|].
  split.
  { intros s e s' H Hf Ha.
    destruct (Event_eq_ResetClicked_dec e) as [->|Hne]; [reflexivity|].
    destruct (handle_frozen _ _ _ H Hf Hne) as (Hf' & _). congruence. }
  split; [reflexivity|].
  exact run_frozen.
Qed.

Example overrun_freezes :
  run init overrun = Some after_overrun /\
  velocity_plot_active after_overrun = false /\
  current_time after_overrun == 12 /\
  map Qred (Deque.to_list (time_data after_overrun)) = [4; 8].
Proof.
  split; [vm_compute; reflexivity|].
  split; [vm_compute; reflexivity|].
  split; vm_compute; reflexivity.
Qed.

Lemma recording_flag_machine_witness :
  let s2 := after_frame (after_frame (update_time_modifier init 200)) in
  velocity_plot_active s2 = true /\
  handle s2 Frame = Some after_overrun /\
  10 < current_time after_overrun /\
  (forall s', run after_overrun [Frame; MassChanged 3; Frame] = Some s' ->
     time_data s' = time_data after_overrun).
Proof.
  intros s2.
  assert (Ha : velocity_plot_active s2 = true) by (vm_compute; reflexivity).
  assert (Hh : handle s2 Frame = Some after_overrun)
    by (vm_compute; reflexivity).
  assert (Hf : velocity_plot_active after_overrun = false)
    by (vm_compute; reflexivity).
  split; [exact Ha|]. split; [exact Hh|]. split.
  - apply (proj1 (proj2 (proj2 recording_flag_machine))
             s2 Frame after_overrun Hh Ha Hf).
  - intros s' Hrun.
    apply (proj2 (proj2 (proj2 (proj2 (proj2 (proj2 recording_flag_machine)))))
             [Frame; MassChanged 3; Frame] after_overrun s' Hf);
      [|exact Hrun].
    intros [H|[H|[H|[]]]]; discriminate H.
Defined.

(** ** Physics after the plot has frozen *)

Lemma after_frame_same_motion (s r : SpringMassSystem) :
  same_motion s r -> same_motion (after_frame s) (after_frame r).
Proof.
  unfold same_motion, physical.
  intros (Hp & Hm & Hk & Hc & Hd & Ht).
  injection Hp as Hx Hv Hc'.
  cbn. rewrite Hx, Hv, Hc', Hm, Hk, Hc, Hd, Ht. now repeat split.
Qed.

Lemma ticks_same_motion (n : nat) (s r s_n : SpringMassSystem) :
  same_motion s r -> ticks n s = Some s_n ->
  exists r_n, ticks n r = Some r_n /\ same_motion s_n r_n.
Proof.
  intros Hsr. revert s_n. induction n as [|n IH]; intros s_n H.
  - cbn in H. injection H as <-. now exists r.
  - apply ticks_S_inv in H as (s1 & H1 & H2).
    destruct (IH _ H1) as (r1 & Hr1 & Hsame).
    apply update_Some_inv in H2 as [Hm ->].
    exists (after_frame r1). split.
    + cbn. rewrite Hr1. cbn. apply update_after_frame.
      destruct Hsame as (_ & <- & _). exact Hm.
    + now apply after_frame_same_motion.
Qed.

Lemma ticks_frozen (n : nat) (s s_n : SpringMassSystem) :
  velocity_plot_active s = false -> ticks n s = Some s_n ->
  velocity_plot_active s_n = false /\
  time_data s_n = time_data s /\ velocity_data s_n = velocity_data s.
Proof.
  intros Hf. revert s_n. induction n as [|n IH]; intros s_n H.
  - cbn in H. injection H as <-. now repeat split.
  - apply ticks_S_inv in H as (s1 & H1 & H2).
    destruct (IH _ H1) as (Hf1 & Ht1 & Hv1).
    destruct (update_frozen _ _ H2 Hf1) as (Hf2 & Ht2 & Hv2).
    repeat split; congruence.
Qed.

(** C9.  In a state whose recording flag is false (and whose mass is not
    zero, so that the step is defined), a frame still performs the
    integration step: velocity, position and elapsed time are updated by
    the same formulas as while recording, and the two history deques and
    the flag are left alone.  This goes on for any number of frames: the
    position, velocity and elapsed time after [n] frames are the ones the
    same [n] frames produce with recording on. *)
Theorem frozen_physics_keeps_running (s : SpringMassSystem)
    (Hfrozen : velocity_plot_active s = false) (Hmass : ~ mass s == 0) :
  let acceleration :=
    (- resilience s * x_position s - damping s * velocity s) / mass s in
  let effective_dt := dt s * time_modifier s in
  (exists s',
     update s = Some s' /\
     velocity s' = velocity s + acceleration * effective_dt /\
     x_position s' = x_position s + velocity s' * effective_dt /\
     current_time s' = current_time s + effective_dt /\
     time_data s' = time_data s /\ velocity_data s' = velocity_data s /\
     velocity_plot_active s' = false) /\
  (forall n : nat,
     exists s_n r_n,
       ticks n s = Some s_n /\
       ticks n (set_velocity_plot_active s true) = Some r_n /\
       physical s_n = physical r_n /\
       current_time s_n ==
         current_time s + inject_Z (Z.of_nat n) * effective_dt /\
       time_data s_n = time_data s /\ velocity_data s_n = velocity_data s /\
       velocity_plot_active s_n = false).
Proof.
  intros acceleration effective_dt. split.
  - exists (after_frame s).
    pose proof (update_after_frame s Hmass) as Hu.
    destruct (update_frozen _ _ Hu Hfrozen) as (Hf & Ht & Hv).
    repeat split; try assumption; reflexivity.
  - intros n.
    destruct (ticks_total n s Hmass) as [s_n Hn].
    assert (Hsame : same_motion s (set_velocity_plot_active s true))
      by (unfold same_motion; now repeat split).
    destruct (ticks_same_motion _ _ _ _ Hsame Hn) as (r_n & Hr & Hsr).
    destruct (ticks_frozen _ _ _ Hfrozen Hn) as (Hf & Ht & Hv).
    exists s_n, r_n. repeat split; try assumption.
    + apply Hsr.
    + now apply ticks_current_time.
Qed.

Lemma frozen_physics_keeps_running_witness :
  velocity_plot_active after_overrun = false /\
  exists s',
    update after_overrun = Some s' /\ current_time s' == 16 /\
    time_data s' = time_data after_overrun /\
    velocity_plot_active s' = false.
Proof.
  split; [vm_compute; reflexivity|].
  destruct (frozen_physics_keeps_running after_overrun)
    as [(s' & Hu & _ & _ & Hc & Ht & _ & Hf) _].
  - vm_compute. reflexivity.
  - vm_compute. discriminate.
  - exists s'. split; [exact Hu|]. split; [|split; assumption].
    rewrite Hc. vm_compute. reflexivity.
Defined.

(** ** Bounded deques *)

Section DequeFacts.

Context {A : Type}.

Lemma deque_append_maxlen (d : Deque.t A) (x : A) :
  Deque.maxlen (Deque.append d x) = Deque.maxlen d.
Proof. reflexivity. Qed.

Lemma deque_append_items (d : Deque.t A) (x : A) :
  Deque.items (Deque.append d x) =
  if (Deque.maxlen d <? S (length (Deque.items d)))%nat
  then tl (Deque.items d ++ [x]) else Deque.items d ++ [x].
Proof.
  unfold Deque.append. cbn [Deque.items].
  rewrite length_app. cbn [length]. now rewrite Nat.add_1_r.
Qed.

Lemma deque_append_length (d : Deque.t A) (x : A) :
  length (Deque.items (Deque.append d x)) =
  if (Deque.maxlen d <? S (length (Deque.items d)))%nat
  then length (Deque.items d) else S (length (Deque.items d)).
Proof.
  rewrite deque_append_items.
  destruct (Deque.maxlen d <? S (length (Deque.items d)))%nat.
  - destruct (Deque.items d); cbn; [reflexivity|].
    rewrite length_app. cbn. lia.
  - rewrite length_app. cbn. lia.
Qed.

Lemma deque_append_length_le (d : Deque.t A) (x : A) :
  (length (Deque.items d) <= Deque.maxlen d)%nat ->
  (length (Deque.items (Deque.append d x)) <= Deque.maxlen d)%nat.
Proof.
  intros H. rewrite deque_append_length.
  destruct (Nat.ltb_spec (Deque.maxlen d) (S (length (Deque.items d)))); lia.
Qed.

Lemma deque_extend_snoc (d : Deque.t A) (xs : list A) (x : A) :
  Deque.extend d (xs ++ [x]) = Deque.append (Deque.extend d xs) x.
Proof.
  unfold Deque.extend. now rewrite fold_left_app.
Qed.

(** Appending a run of samples keeps the most recent [maxlen] of them. *)
Lemma deque_extend_items (xs : list A) (d : Deque.t A) :
  (length (Deque.items d) <= Deque.maxlen d)%nat ->
  Deque.maxlen (Deque.extend d xs) = Deque.maxlen d /\
  Deque.items (Deque.extend d xs) =
  skipn (length (Deque.items d ++ xs) - Deque.maxlen d) (Deque.items d ++ xs).
Proof.
  revert d. induction xs as [|x xs IH]; intros d Hd.
  - cbn. split; [reflexivity|]. rewrite app_nil_r.
    replace (length (Deque.items d) - Deque.maxlen d)%nat with O by lia.
    reflexivity.
  - change (Deque.extend d (x :: xs))
      with (Deque.extend (Deque.append d x) xs).
    destruct (IH (Deque.append d x)) as [Hm Hi].
    { rewrite deque_append_maxlen. now apply deque_append_length_le. }
    rewrite deque_append_maxlen in Hm, Hi. split; [exact Hm|].
    rewrite Hi, deque_append_items.
    destruct (Nat.ltb_spec (Deque.maxlen d) (S (length (Deque.items d))))
      as [Hfull|Hroom].
    + assert (Hlen : length (Deque.items d) = Deque.maxlen d) by lia.
      destruct (Deque.items d) as [|a l] eqn:El.
      * cbn in *. rewrite <- Hlen. cbn. now rewrite Nat.sub_0_r.
      * cbn [app tl]. rewrite <- Hlen. cbn [length].
        rewrite !length_app. cbn [length].
        replace (length l + 1 + length xs - S (length l))%nat
          with (length xs) by lia.
        replace (S (length l + S (length xs)) - S (length l))%nat
          with (S (length xs)) by lia.
        cbn [skipn]. now rewrite <- app_assoc.
    + rewrite <- app_assoc. cbn [app]. reflexivity.
Qed.

End DequeFacts.

Lemma deque_append_map {A B : Type} (f : A -> B) (n : nat) (l : list A)
    (x : A) :
  Deque.items (Deque.append (Deque.make n (map f l)) (f x)) =
  map f (Deque.items (Deque.append (Deque.make n l) x)).
Proof.
  rewrite !deque_append_items. cbn [Deque.items Deque.maxlen].
  rewrite length_map.
  change [f x] with (map f [x]). rewrite <- map_app.
  destruct (n <? S (length l))%nat; [|reflexivity].
  now destruct (l ++ [x]).
Qed.

Example deque_evicts_oldest :
  Deque.to_list (Deque.extend (Deque.empty max_points) (seq 1 503)) =
  seq 4 500.
Proof. vm_compute. reflexivity. Qed.

(** ** What each event does to the history *)

Lemma after_frame_time_data (s : SpringMassSystem) :
  time_data (after_frame s) =
  if velocity_plot_active (after_frame s)
  then Deque.append (time_data s) (current_time (after_frame s))
  else time_data s.
Proof. reflexivity. Qed.

Lemma after_frame_velocity_data (s : SpringMassSystem) :
  velocity_data (after_frame s) =
  if velocity_plot_active (after_frame s)
  then Deque.append (velocity_data s) (velocity (after_frame s))
  else velocity_data s.
Proof. reflexivity. Qed.

(** An event appends the new sample to both deques, clears both, or leaves
    both alone. *)
Lemma handle_history (s s' : SpringMassSystem) (e : Event) :
  handle s e = Some s' ->
  (e = Frame /\ velocity_plot_active s = true /\ current_time s' <= 10 /\
   time_data s' = Deque.append (time_data s) (current_time s') /\
   velocity_data s' = Deque.append (velocity_data s) (velocity s')) \/
  (e = ResetClicked /\
   time_data s' = Deque.clear (time_data s) /\
   velocity_data s' = Deque.clear (velocity_data s)) \/
  (time_data s' = time_data s /\ velocity_data s' = velocity_data s).
Proof.
  intros H. destruct e; cbn in H;
    try (injection H as <-; right; right; split; reflexivity).
  - pose proof (update_flag _ _ H) as Hflag.
    apply update_Some_inv in H as [_ ->].
    rewrite after_frame_time_data, after_frame_velocity_data.
    destruct (velocity_plot_active (after_frame s)).
    + symmetry in Hflag. apply andb_true_iff in Hflag as [Ha Hle].
      apply Qle_bool_iff in Hle. left. now repeat split.
    + right; right. now split.
  - injection H as <-. right; left. now repeat split.
Qed.

Lemma well_formed_init : well_formed init.
Proof.
  unfold well_formed. repeat split; cbn; try lia.
  now exists [].
Qed.

Lemma handle_well_formed (s s' : SpringMassSystem) (e : Event) :
  well_formed s -> handle s e = Some s' -> well_formed s'.
Proof.
  intros (Hmt & Hmv & Hlen & rs & Hrt & Hrv) H.
  unfold well_formed, recorded_by, Deque.to_list in *.
  destruct (handle_history _ _ _ H)
    as [(_ & _ & _ & Et & Ev) | [(_ & Et & Ev) | (Et & Ev)]];
    rewrite Et, Ev.
  - rewrite !deque_append_maxlen. repeat split; try assumption.
    + rewrite <- Hmt. apply deque_append_length_le. now rewrite Hmt.
    + exists (Deque.items
                (Deque.append (Deque.make (Deque.maxlen (time_data s)) rs)
                              s')).
      split.
      * rewrite <- deque_append_map, <- Hrt. now destruct (time_data s).
      * rewrite Hmt, <- Hmv, <- deque_append_map, <- Hrv.
        now destruct (velocity_data s).
  - cbn. repeat split; try assumption; try lia. now exists [].
  - repeat split; try assumption. now exists rs.
Qed.

Lemma run_well_formed (es : list Event) (s s' : SpringMassSystem) :
  well_formed s -> run s es = Some s' -> well_formed s'.
Proof.
  revert s. induction es as [|e es IH]; intros s Hwf H.
  - cbn in H. now injection H as <-.
  - cbn in H. destruct (handle s e) as [s1|] eqn:He; [|discriminate].
    cbn in H. apply (IH s1); [|exact H].
    now apply (handle_well_formed s s1 e).
Qed.

(** C10.  In every state reachable from the initial one, the deque of times
    and the deque of velocities have the same length, and the i-th time and
    the i-th velocity are the elapsed time and the velocity of one and the
    same frame.  Every event either appends the sample of the frame to both
    deques (a frame while recording with elapsed time at most 10), clears
    both (reset), or leaves both unchanged. *)
Theorem history_deques_paired :
  (forall es s, run init es = Some s ->
     length (Deque.to_list (time_data s)) =
     length (Deque.to_list (velocity_data s)) /\
     exists rs, recorded_by s rs) /\
  (forall s e s', handle s e = Some s' ->
     (e = Frame /\ velocity_plot_active s = true /\ current_time s' <= 10 /\
      time_data s' = Deque.append (time_data s) (current_time s') /\
      velocity_data s' = Deque.append (velocity_data s) (velocity s')) \/
     (e = ResetClicked /\
      time_data s' = Deque.clear (time_data s) /\
      velocity_data s' = Deque.clear (velocity_data s)) \/
     (time_data s' = time_data s /\ velocity_data s' = velocity_data s)).
Proof.
  split.
  - intros es s H.
    destruct (run_well_formed es init s well_formed_init H)
      as (_ & _ & _ & rs & Hrt & Hrv).
    split; [|now exists rs].
    now rewrite Hrt, Hrv, !length_map.
  - intros s e s'. apply handle_history.
Qed.

Lemma history_deques_paired_witness :
  exists s, run init [Frame; Frame; MassChanged 2; Frame] = Some s /\
    length (Deque.to_list (time_data s)) =
    length (Deque.to_list (velocity_data s)).
Proof.
  destruct (run init [Frame; Frame; MassChanged 2; Frame]) as [s|] eqn:E.
  - exists s. split; [reflexivity|].
    apply (proj1 history_deques_paired _ _ E).
  - vm_compute in E. discriminate E.
Defined.

(** ** Sample times in insertion order *)

Lemma StronglySorted_snoc (l : list Q) (x : Q) :
  StronglySorted Qle l -> Forall (fun y => y <= x) l ->
  StronglySorted Qle (l ++ [x]).
Proof.
  induction l as [|a l IH]; intros Hs Hall; cbn.
  - repeat constructor.
  - apply StronglySorted_inv in Hs as [Hs Ha].
    inversion Hall as [|? ? Hax Hall']; subst.
    constructor; [now apply IH|].
    apply Forall_app. split; [exact Ha|]. now repeat constructor.
Qed.

Lemma StronglySorted_tl (l : list Q) :
  StronglySorted Qle l -> StronglySorted Qle (tl l).
Proof.
  destruct l as [|a l]; cbn; [auto|].
  intros H. now apply StronglySorted_inv in H.
Qed.

Lemma Forall_tl {A : Type} (P : A -> Prop) (l : list A) :
  Forall P l -> Forall P (tl l).
Proof.
  destruct l; cbn; [auto|]. intros H. now inversion H.
Qed.

Lemma handle_time_order (s s' : SpringMassSystem) (e : Event) :
  time_forward e -> handle s e = Some s' ->
  time_ordered s -> time_ordered s'.
Proof.
  intros Hfwd H (Hdt & Htm & Hs & Hb).
  unfold time_ordered, Deque.to_list in *.
  destruct e; cbn in H; cbn in Hfwd;
    try (injection H as <-; now cbn).
  - apply update_Some_inv in H as [_ ->].
    assert (Hstep : current_time s <= current_time (after_frame s)).
    { cbn. rewrite <- (Qplus_0_r (current_time s)) at 1.
      apply Qplus_le_r. now apply Qmult_le_0_compat. }
    split; [exact Hdt|]. split; [exact Htm|].
    assert (Hb' : Forall (fun t => t <= current_time (after_frame s))
                    (Deque.items (time_data s))).
    { eapply Forall_impl; [|exact Hb]. cbn beta. intros t Ht.
      now apply Qle_trans with (current_time s). }
    rewrite after_frame_time_data.
    destruct (velocity_plot_active (after_frame s)); [|now split].
    rewrite deque_append_items.
    assert (Hs1 : StronglySorted Qle
              (Deque.items (time_data s) ++ [current_time (after_frame s)]))
      by now apply StronglySorted_snoc.
    assert (Hb1 : Forall (fun t => t <= current_time (after_frame s))
              (Deque.items (time_data s) ++ [current_time (after_frame s)])).
    { apply Forall_app. split; [exact Hb'|].
      repeat constructor. apply Qle_refl. }
    destruct (_ <? _)%nat; [|now split].
    split; [now apply StronglySorted_tl | now apply Forall_tl].
  - injection H as <-. cbn. repeat split; try assumption; constructor.
Qed.

Lemma run_time_order (es : list Event) (s s' : SpringMassSystem) :
  Forall time_forward es -> run s es = Some s' ->
  time_ordered s -> time_ordered s'.
Proof.
  revert s. induction es as [|e es IH]; intros s Hfwd H Hord.
  - cbn in H. now injection H as <-.
  - inversion Hfwd as [|? ? He Hes]; subst.
    cbn in H. destruct (handle s e) as [s1|] eqn:E; [|discriminate].
    cbn in H. apply (IH s1 Hes H).
    now apply (handle_time_order s s1 e).
Qed.

Lemma time_ordered_init : time_ordered init.
Proof.
  unfold time_ordered. cbn.
  split; [discriminate|]. split; [discriminate|]. split; constructor.
Qed.

(** ** Runs the GUI can produce *)

Lemma slider_event_time_forward (e : Event) :
  slider_event e -> time_forward e.
Proof.
  destruct e; cbn; try tauto. intros [H _]. lra.
Qed.

Lemma handle_slider_mass (s s' : SpringMassSystem) (e : Event) :
  slider_event e -> handle s e = Some s' -> 0.1 <= mass s -> 0.1 <= mass s'.
Proof.
  intros He H Hm. destruct e; cbn in H, He.
  - apply update_params in H as (-> & _). exact Hm.
  - injection H as <-. exact Hm.
  - injection H as <-. cbn. tauto.
  - injection H as <-. exact Hm.
  - injection H as <-. exact Hm.
  - injection H as <-. exact Hm.
Qed.

(** With slider values within their ranges the mass stays positive, so no
    frame ever fails on the division. *)
Lemma run_slider_events_total (es : list Event) (s : SpringMassSystem) :
  Forall slider_event es -> 0.1 <= mass s ->
  exists s', run s es = Some s' /\ 0.1 <= mass s'.
Proof.
  revert s. induction es as [|e es IH]; intros s Hall Hm.
  - exists s. now split.
  - inversion Hall as [|? ? He Hes]; subst.
    assert (Hstep : exists s1, handle s e = Some s1).
    { destruct e; cbn; eauto. exists (after_frame s).
      apply update_after_frame. intros E. rewrite E in Hm.
      revert Hm. now vm_compute. }
    destruct Hstep as [s1 H1].
    destruct (IH s1 Hes (handle_slider_mass s s1 e He H1 Hm))
      as (s' & Hrun & Hm').
    exists s'. split; [|exact Hm']. cbn. now rewrite H1.
Qed.

(** Whatever the user does with the sliders and the reset button, the
    program keeps running and its recorded times stay in order. *)
Lemma slider_runs_ordered (es : list Event) :
  Forall slider_event es ->
  exists s, run init es = Some s /\
    StronglySorted Qle (Deque.to_list (time_data s)).
Proof.
  intros Hall.
  destruct (run_slider_events_total es init Hall) as (s & Hrun & _).
  - vm_compute. discriminate.
  - exists s. split; [exact Hrun|].
    apply (run_time_order es init s); [|exact Hrun|exact time_ordered_init].
    eapply Forall_impl; [|exact Hall]. exact slider_event_time_forward.
Qed.

(** ** Recording runs *)

(** While the flag stays true, every frame has appended its sample. *)
Lemma ticks_recording (n : nat) (s s_n : SpringMassSystem) :
  ticks n s = Some s_n -> velocity_plot_active s_n = true ->
  time_data s_n =
    Deque.extend (time_data s) (map current_time (trajectory n s)) /\
  velocity_data s_n =
    Deque.extend (velocity_data s) (map velocity (trajectory n s)).
Proof.
  revert s_n. induction n as [|n IH]; intros s_n H Ha.
  - cbn in H. injection H as <-. now split.
  - apply ticks_S_inv in H as (s1 & H1 & H2).
    rewrite (trajectory_snoc _ _ _ _ H1 H2), !map_app. cbn [map].
    rewrite !deque_extend_snoc.
    pose proof (update_flag _ _ H2) as Hflag. rewrite Ha in Hflag.
    symmetry in Hflag. apply andb_true_iff in Hflag as [Ha1 _].
    destruct (IH _ H1 Ha1) as [<- <-].
    apply update_Some_inv in H2 as [_ ->].
    rewrite after_frame_time_data, after_frame_velocity_data, Ha.
    now split.
Qed.

Lemma trajectory_In (n : nat) (s r : SpringMassSystem) :
  ~ mass s == 0 -> In r (trajectory n s) ->
  exists i, (1 <= i <= n)%nat /\ ticks i s = Some r.
Proof.
  intros Hm. induction n as [|n IH]; intros Hin; [contradiction|].
  destruct (ticks_total n s Hm) as [s1 H1].
  destruct (ticks_total (S n) s Hm) as [s2 H2].
  pose proof H2 as H2'. cbn in H2'. rewrite H1 in H2'. cbn in H2'.
  rewrite (trajectory_snoc _ _ _ _ H1 H2') in Hin.
  apply in_app_or in Hin as [Hin|[<-|[]]].
  - destruct (IH Hin) as (i & Hi & Ht). exists i. split; [lia|exact Ht].
  - exists (S n). split; [lia|exact H2].
Qed.

(** At a tenth of the normal speed a frame lasts 0.002 s, so more than
    [max_points] frames fit below the horizon and the oldest samples are
    dropped while recording. *)
Lemma recording_outlasts_capacity (k : nat) :
  (k <= 4500)%nat ->
  exists s,
    ticks (max_points + k) (update_time_modifier init 0.1) = Some s /\
    velocity_plot_active s = true.
Proof.
  intros Hk. set (s0 := update_time_modifier init 0.1).
  assert (Hm : ~ mass s0 == 0) by (vm_compute; discriminate).
  destruct (ticks_total (max_points + k) s0 Hm) as [s Hs].
  exists s. split; [exact Hs|].
  apply (ticks_active_iff _ s0 _ (eq_refl : velocity_plot_active s0 = true) Hs).
  apply Forall_forall. intros r Hr.
  destruct (trajectory_In _ _ _ Hm Hr) as (i & Hi & Ht).
  rewrite (ticks_current_time _ _ _ Ht).
  assert (Hq : inject_Z (Z.of_nat i) <= 5000).
  { change 5000 with (inject_Z 5000). rewrite <- Zle_Qle.
    unfold max_points in Hi. lia. }
  change (current_time s0) with 0.
  change (dt s0 * time_modifier s0) with (0.02 * 0.1).
  lra.
Qed.

(** After [n] recording frames on empty deques, the deques hold the
    samples of the last [max_points] frames. *)
Lemma recording_keeps_latest (s0 : SpringMassSystem) (n : nat)
    (s : SpringMassSystem) :
  Deque.to_list (time_data s0) = [] ->
  Deque.to_list (velocity_data s0) = [] ->
  Deque.maxlen (time_data s0) = max_points ->
  Deque.maxlen (velocity_data s0) = max_points ->
  ticks n s0 = Some s -> velocity_plot_active s = true ->
  Deque.to_list (time_data s) =
    skipn (n - max_points) (map current_time (trajectory n s0)) /\
  Deque.to_list (velocity_data s) =
    skipn (n - max_points) (map velocity (trajectory n s0)).
Proof.
  unfold Deque.to_list. intros Et Ev Mt Mv Hn Ha.
  destruct (ticks_recording _ _ _ Hn Ha) as [-> ->].
  pose proof (trajectory_length _ _ _ Hn) as Hlen.
  split.
  - destruct (deque_extend_items (map current_time (trajectory n s0))
                (time_data s0)) as [_ ->].
    + rewrite Et. cbn. lia.
    + now rewrite Et, Mt, app_nil_l, length_map, Hlen.
  - destruct (deque_extend_items (map velocity (trajectory n s0))
                (velocity_data s0)) as [_ ->].
    + rewrite Ev. cbn. lia.
    + now rewrite Ev, Mv, app_nil_l, length_map, Hlen.
Qed.

(** C5.  In every reachable state each deque of the history holds at most
    [max_points] = 500 samples.  As long as the speed is never set to a
    negative value (the slider offers 0.1 to 2.0), the recorded times are
    in non-decreasing order, oldest first.  After [n] frames that all
    recorded, starting with empty deques, the deques hold the samples of
    the most recent [max_points] of those frames, in order; so after
    [max_points + k] frames they hold exactly [max_points] samples, the
    first [k] having been dropped. *)
Theorem history_bounded_ordered_fifo :
  (forall es s, run init es = Some s ->
     (length (Deque.to_list (time_data s)) <= max_points)%nat /\
     (length (Deque.to_list (velocity_data s)) <= max_points)%nat) /\
  max_points = 500%nat /\
  (forall es s, Forall time_forward es -> run init es = Some s ->
     StronglySorted Qle (Deque.to_list (time_data s))) /\
  (forall s0 n s,
     Deque.to_list (time_data s0) = [] ->
     Deque.to_list (velocity_data s0) = [] ->
     Deque.maxlen (time_data s0) = max_points ->
     Deque.maxlen (velocity_data s0) = max_points ->
     ticks n s0 = Some s -> velocity_plot_active s = true ->
     Deque.to_list (time_data s) =
       skipn (n - max_points) (map current_time (trajectory n s0)) /\
     Deque.to_list (velocity_data s) =
       skipn (n - max_points) (map velocity (trajectory n s0))) /\
  (forall s0 k s,
     Deque.to_list (time_data s0) = [] ->
     Deque.to_list (velocity_data s0) = [] ->
     Deque.maxlen (time_data s0) = max_points ->
     Deque.maxlen (velocity_data s0) = max_points ->
     ticks (max_points + k) s0 = Some s -> velocity_plot_active s = true ->
     length (Deque.to_list (time_data s)) = max_points /\
     Deque.to_list (time_data s) =
       skipn k (map current_time (trajectory (max_points + k) s0)) /\
     Deque.to_list (velocity_data s) =
       skipn k (map velocity (trajectory (max_points + k) s0))).
Proof.
  split.
  { intros es s H.
    destruct (run_well_formed es init s well_formed_init H)
      as (_ & _ & Hlen & rs & Hrt & Hrv).
    split; [exact Hlen|].
    rewrite Hrv, length_map, <- (length_map current_time), <- Hrt.
    exact Hlen. }
  split; [reflexivity|].
  split.
  { intros es s Hfwd H.
    apply (run_time_order es init s Hfwd H time_ordered_init). }
  split; [exact recording_keeps_latest|].
  intros s0 k s Et Ev Mt Mv Hn Ha.
  destruct (recording_keeps_latest s0 _ s Et Ev Mt Mv Hn Ha) as [Ht Hv].
  replace (max_points + k - max_points)%nat with k in Ht, Hv by lia.
  split; [|now split].
  rewrite Ht, length_skipn, length_map, (trajectory_length _ _ _ Hn). lia.
Qed.

Lemma history_bounded_ordered_fifo_witness :
  let es := [Frame; TimeChanged 2; Frame; ResetClicked; Frame; Frame] in
  (exists s, run init es = Some s /\
     (length (Deque.to_list (time_data s)) <= max_points)%nat /\
     StronglySorted Qle (Deque.to_list (time_data s))) /\
  (exists s, ticks 2 init = Some s /\
     Deque.to_list (time_data s) =
       map current_time (trajectory 2 init)).
Proof.
  intros es. split.
  - destruct (run init es) as [s|] eqn:E.
    + exists s. split; [reflexivity|]. split.
      * apply (proj1 history_bounded_ordered_fifo es s E).
      * apply (proj1 (proj2 (proj2 history_bounded_ordered_fifo)) es s);
          [|exact E].
        repeat constructor; vm_compute; discriminate.
    + vm_compute in E. discriminate E.
  - destruct (ticks 2 init) as [s|] eqn:E.
    + exists s. split; [reflexivity|].
      apply (proj1 (proj2 (proj2 (proj2 history_bounded_ordered_fifo)))
               init 2%nat s eq_refl eq_refl eq_refl eq_refl E).
      vm_compute in E. injection E as <-. reflexivity.
    + vm_compute in E. discriminate E.
Defined.

(** The run of [recording_outlasts_capacity] with one frame more than the
    deques can hold: the first sample is gone. *)
Example first_sample_evicted :
  exists s,
    ticks (max_points + 1) (update_time_modifier init 0.1) = Some s /\
    length (Deque.to_list (time_data s)) = max_points /\
    Deque.to_list (time_data s) =
      skipn 1 (map current_time
                 (trajectory (max_points + 1) (update_time_modifier init 0.1))).
Proof.
  destruct (recording_outlasts_capacity 1) as (s & Hs & Ha); [lia|].
  exists s. split; [exact Hs|].
  destruct (recording_keeps_latest (update_time_modifier init 0.1)
              (max_points + 1) s eq_refl eq_refl eq_refl eq_refl Hs Ha)
    as (Ht & _).
  replace (max_points + 1 - max_points)%nat with 1%nat in Ht by lia.
  split; [|exact Ht].
  rewrite Ht, length_skipn, length_map, (trajectory_length _ _ _ Hs). lia.
Qed.

(** ** Elapsed time *)



(** ** The sample nearest to the pointer *)

Lemma py_min_from_le (l : list Q) (cur : Q) :
  py_min_from cur l <= cur /\ Forall (fun d => py_min_from cur l <= d) l.
Proof.
  revert cur. induction l as [|d l IH]; intros cur; cbn.
  - split; [apply Qle_refl | constructor].
  - destruct (IH (if Qlt_bool d cur then d else cur)) as [Hc Hall].
    destruct (Qlt_bool d cur) eqn:E.
    + apply Qlt_bool_iff in E. split.
      * apply Qle_trans with d; [exact Hc | now apply Qlt_le_weak].
      * now constructor.
    + assert (Hcd : cur <= d).
      { apply Qnot_lt_le. intros Hlt. apply Qlt_bool_iff in Hlt. congruence. }
      split; [exact Hc|]. constructor; [|exact Hall].
      now apply Qle_trans with cur.
Qed.

Lemma py_min_from_In (l : list Q) (cur : Q) :
  py_min_from cur l = cur \/ In (py_min_from cur l) l.
Proof.
  revert cur. induction l as [|d l IH]; intros cur; cbn; [now left|].
  destruct (IH (if Qlt_bool d cur then d else cur)) as [E|Hin].
  - rewrite E. destruct (Qlt_bool d cur); [right; now left | now left].
  - right. now right.
Qed.

Lemma py_index_first (l : list Q) (m : Q) :
  (exists d, In d l /\ d == m) ->
  exists i d,
    py_index l m = Some i /\ nth_error l i = Some d /\ d == m /\
    forall j d', (j < i)%nat -> nth_error l j = Some d' -> ~ d' == m.
Proof.
  induction l as [|a l IH]; intros (d & Hin & Hd); [contradiction|].
  cbn [py_index]. destruct (Qeq_bool a m) eqn:E.
  - apply Qeq_bool_iff in E. exists O, a. repeat split; try assumption.
    intros j d' Hj. lia.
  - apply Qeq_bool_neq in E.
    destruct Hin as [->|Hin]; [contradiction|].
    destruct (IH (ex_intro _ d (conj Hin Hd))) as (i & d1 & Hi & Hn & Hm & Hf).
    exists (S i), d1. rewrite Hi. repeat split; try assumption.
    intros [|j] d' Hj Hnth; cbn in Hnth.
    + now injection Hnth as <-.
    + apply (Hf j d'); [lia | exact Hnth].
Qed.

(** On a history that is not empty the marker goes to a sample at the
    least distance from the pointer, the earliest one if several are. *)
Lemma cursor_at_nearest (h : list (Q * Q)) (q : Q) :
  h <> [] ->
  exists i t v,
    nth_error h i = Some (t, v) /\
    cursor_at (map fst h) (map snd h) q = Some (Shown t v) /\
    (forall j t' v', nth_error h j = Some (t', v') ->
       Qabs (t - q) <= Qabs (t' - q)) /\
    (forall j t' v', (j < i)%nat -> nth_error h j = Some (t', v') ->
       Qabs (t - q) < Qabs (t' - q)).
Proof.
  intros Hne. destruct h as [|[t0 v0] h']; [contradiction|].
  set (h := (t0, v0) :: h').
  set (dist := fun x_point : Q => Qabs (x_point - q)).
  set (distances := map dist (map fst h)).
  set (m := py_min_from (dist t0) (map dist (map fst h'))).
  assert (Hmin : Forall (fun d => m <= d) distances).
  { destruct (py_min_from_le (map dist (map fst h')) (dist t0)) as [H0 Hr].
    constructor; assumption. }
  assert (Hin : exists d, In d distances /\ d == m).
  { exists m. split; [|reflexivity].
    destruct (py_min_from_In (map dist (map fst h')) (dist t0)) as [E|Hin].
    - left. symmetry. exact E.
    - right. exact Hin. }
  destruct (py_index_first distances m Hin) as (i & d & Hi & Hn & Hd & Hf).
  unfold distances in Hn. rewrite !nth_error_map in Hn.
  destruct (nth_error h i) as [[t v]|] eqn:Hh; [|discriminate].
  cbn [option_map fst] in Hn. injection Hn as <-.
  exists i, t, v. split; [exact Hh|].
  assert (Hdist : forall j t' v', nth_error h j = Some (t', v') ->
                    nth_error distances j = Some (dist t')).
  { intros j t' v' Hj. unfold distances.
    now rewrite !nth_error_map, Hj. }
  split; [|split].
  - change (cursor_at (map fst h) (map snd h) q)
      with (nearest_idx <- py_index distances m ;;
            px <- nth_error (map fst h) nearest_idx ;;
            py <- nth_error (map snd h) nearest_idx ;;
            Some (Shown px py)).
    rewrite Hi. cbn [bind].
    rewrite !nth_error_map, Hh. reflexivity.
  - intros j t' v' Hj. fold (dist t) (dist t'). rewrite Hd.
    apply Hdist in Hj. apply nth_error_In in Hj.
    rewrite Forall_forall in Hmin. now apply Hmin.
  - intros j t' v' Hlt Hj. fold (dist t) (dist t'). rewrite Hd.
    apply Hdist in Hj.
    pose proof (Hf j _ Hlt Hj) as Hneq.
    apply nth_error_In in Hj.
    rewrite Forall_forall in Hmin. apply Hmin in Hj.
    apply Qle_lt_or_eq in Hj as [Hj|Hj]; [exact Hj|].
    exfalso. apply Hneq. now symmetry.
Qed.

(** C3.  With the pointer over the velocity plot: on an empty history the
    marker is hidden (no sample is returned); on every history that is not
    empty and for every pointer abscissa [q] the marker goes to a recorded
    sample (t, v) whose distance |t - q| is the least over the history, and
    every sample recorded before it is strictly farther away, so ties go to
    the earliest.  On the history (0,0), (1,5), (2,-5) the sample for 1.4
    is (1,5) and the sample for 1.6 is (2,-5). *)
Theorem nearest_sample_lookup :
  (forall s q, holds_history s [] ->
     on_mouse_move s (mkMouseEvent true q) = Some Hidden) /\
  (forall s h q, h <> [] -> holds_history s h ->
     exists i t v,
       nth_error h i = Some (t, v) /\
       on_mouse_move s (mkMouseEvent true q) = Some (Shown t v) /\
       (forall j t' v', nth_error h j = Some (t', v') ->
          Qabs (t - q) <= Qabs (t' - q)) /\
       (forall j t' v', (j < i)%nat -> nth_error h j = Some (t', v') ->
          Qabs (t - q) < Qabs (t' - q))) /\
  (forall s, holds_history s [(0, 0); (1, 5); (2, -5)] ->
     on_mouse_move s (mkMouseEvent true 1.4) = Some (Shown 1 5) /\
     on_mouse_move s (mkMouseEvent true 1.6) = Some (Shown 2 (-5))).
Proof.
  split; [|split].
  - intros s q [Ht Hv]. unfold on_mouse_move. cbn [inaxes_velocity_plot].
    now rewrite Ht, Hv.
  - intros s h q Hne [Ht Hv].
    destruct (cursor_at_nearest h q Hne) as (i & t & v & Hi & Hc & Hrest).
    exists i, t, v. split; [exact Hi|]. split; [|exact Hrest].
    unfold on_mouse_move. cbn [inaxes_velocity_plot xdata].
    now rewrite Ht, Hv.
  - intros s [Ht Hv]. unfold on_mouse_move.
    cbn [inaxes_velocity_plot xdata]. rewrite Ht, Hv.
    split; vm_compute; reflexivity.
Qed.

Lemma nearest_sample_lookup_witness :
  exists t v,
    on_mouse_move sample_state (mkMouseEvent true 1.5) = Some (Shown t v) /\
    forall j t' v', nth_error sample_history j = Some (t', v') ->
      Qabs (t - 1.5) <= Qabs (t' - 1.5).
Proof.
  destruct (proj1 (proj2 nearest_sample_lookup) sample_state sample_history
              1.5) as (i & t & v & _ & Hc & Hmin & _).
  - discriminate.
  - split; reflexivity.
  - exists t, v. split; [exact Hc | exact Hmin].
Defined.

(** Half way between two samples the earlier one wins; outside the
    velocity plot the marker is hidden. *)
Example tie_goes_to_earlier_sample :
  on_mouse_move sample_state (mkMouseEvent true 1.5) = Some (Shown 1 5) /\
  on_mouse_move sample_state (mkMouseEvent false 1.5) = Some Hidden.
Proof. split; vm_compute; reflexivity. Qed.

(** ** The coil *)

Module GeometryFacts.

Import Reals Lra.
Import Geometry.
Local Open Scope R_scope.

Lemma set_last_length (l : list R) (v : R) :
  length (set_last l v) = length l.
Proof.
  induction l as [|a [|b l] IH]; cbn in *; [reflexivity..|].
  now rewrite IH.
Qed.

Lemma set_last_nth (l : list R) (v d : R) (i : nat) :
  (S i < length l)%nat -> nth i (set_last l v) d = nth i l d.
Proof.
  revert i. induction l as [|a [|b l] IH]; intros i Hi; cbn in Hi; try lia.
  destruct i as [|i]; [reflexivity|].
  change (nth i (set_last (b :: l) v) d = nth i (b :: l) d).
  apply IH. cbn. lia.
Qed.

Lemma set_last_nth_last (l : list R) (v d : R) :
  l <> [] -> nth (length l - 1) (set_last l v) d = v.
Proof.
  induction l as [|a [|b l] IH]; intros Hne; [contradiction|reflexivity|].
  change (nth (S (length l)) (a :: set_last (b :: l) v) d = v).
  cbn [nth]. cbn [length] in IH. rewrite Nat.sub_1_r in IH. cbn in IH.
  apply IH. discriminate.
Qed.

Lemma linspace_length (a b : R) (n : nat) : length (linspace a b n) = n.
Proof.
  unfold linspace. destruct (1 <? n)%nat;
    rewrite ?set_last_length, length_map, length_seq; reflexivity.
Qed.

(** The samples of [linspace] are equally spaced from [a] to [b]. *)
Lemma linspace_nth (a b : R) (n i : nat) :
  (1 < n)%nat -> (i < n)%nat ->
  nth i (linspace a b n) 0 = a + INR i * ((b - a) / INR (n - 1)).
Proof.
  intros Hn Hi. unfold linspace.
  destruct (Nat.ltb_spec 1 n) as [_|]; [|lia].
  set (f := fun j : nat => INR j * ((b - a) / INR (n - 1)) + a).
  assert (Hnth : nth i (map f (seq 0 n)) 0 = f i).
  { rewrite (nth_indep _ 0 (f O)) by now rewrite length_map, length_seq.
    rewrite map_nth, seq_nth by exact Hi. reflexivity. }
  destruct (Nat.eq_dec i (n - 1)) as [->|Hne].
  - replace (n - 1)%nat with (length (map f (seq 0 n)) - 1)%nat at 1
      by now rewrite length_map, length_seq.
    rewrite set_last_nth_last.
    + assert (INR (n - 1) <> 0) by (apply not_0_INR; lia). field. assumption.
    + destruct n; [lia|discriminate].
  - rewrite set_last_nth by (rewrite length_map, length_seq; lia).
    rewrite Hnth. unfold f. ring.
Qed.

Lemma nth_map_0 (g : R -> R) (l : list R) (i : nat) :
  (i < length l)%nat -> nth i (map g l) 0 = g (nth i l 0).
Proof.
  intros Hi. rewrite (nth_indep _ 0 (g 0)) by now rewrite length_map.
  apply map_nth.
Qed.

(** C7.  [create_spring] depends on the position [x] only.  It returns 100
    abscissae and 100 ordinates; the i-th sample (i = 0..99) is taken at
    the parameter t = i/99, so the samples are equally spaced from t = 0 to
    t = 1, and has abscissa [t * x] and ordinate [0.2 * sin (2 pi 6 t)].
    The ordinates do not depend on [x] at all.  For [x = 0] every abscissa
    is 0, and for every [x] every ordinate lies between -0.2 and 0.2. *)
Theorem create_spring_curve :
  (forall x,
     length (fst (create_spring x)) = 100%nat /\
     length (snd (create_spring x)) = 100%nat) /\
  (forall x i, (i < 100)%nat ->
     let t := INR i / 99 in
     0 <= t <= 1 /\
     nth i (fst (create_spring x)) 0 = t * x /\
     nth i (snd (create_spring x)) 0 = 0.2 * sin (2 * PI * 6 * t)) /\
  (forall x x', snd (create_spring x) = snd (create_spring x')) /\
  (forall v, In v (fst (create_spring 0)) -> v = 0) /\
  (forall x v, In v (snd (create_spring x)) -> -0.2 <= v <= 0.2).
Proof.
  assert (Ht : forall i, (i < 100)%nat ->
            nth i (linspace 0 1 100) 0 = INR i / 99).
  { intros i Hi. rewrite linspace_nth by lia.
    replace (INR (100 - 1)) with 99
      by (rewrite INR_IZR_INZ; reflexivity).
    field. }
  split; [|split; [|split; [|split]]].
  - intros x. unfold create_spring. cbn [fst snd].
    now rewrite !length_map, linspace_length.
  - intros x i Hi t. split.
    + assert (0 <= INR i) by apply pos_INR.
      assert (INR i <= 99).
      { replace 99 with (INR 99) by (rewrite INR_IZR_INZ; reflexivity).
        apply le_INR. lia. }
      unfold t. split; lra.
    + unfold create_spring. cbn [fst snd].
      rewrite !nth_map_0 by (rewrite linspace_length; exact Hi).
      rewrite (Ht i Hi). split; reflexivity.
  - reflexivity.
  - intros v Hin. unfold create_spring in Hin. cbn [fst] in Hin.
    apply in_map_iff in Hin as (t & <- & _). ring.
  - intros x v Hin. unfold create_spring in Hin. cbn [snd] in Hin.
    apply in_map_iff in Hin as (t & <- & _).
    pose proof (SIN_bound (2 * PI * 6 * t)) as [Hlo Hhi].
    split; lra.
Qed.

Lemma create_spring_curve_witness :
  nth 99 (fst (create_spring 3)) 0 = INR 99 / 99 * 3 /\
  nth 99 (snd (create_spring 3)) 0 = 0.2 * sin (2 * PI * 6 * (INR 99 / 99)).
Proof.
  destruct (proj1 (proj2 create_spring_curve) 3 99%nat) as (_ & Hx & Hy).
  - lia.
  - split; [exact Hx | exact Hy].
Defined.

End GeometryFacts.

(** * Further properties of the controller *)

(** ** Runs that fail, runs that cannot *)

Lemma run_app (es1 es2 : list Event) (s : SpringMassSystem) :
  run s (es1 ++ es2) = (s1 <- run s es1 ;; run s1 es2).
Proof.
  revert s. induction es1 as [|e es1 IH]; intros s; [reflexivity|].
  cbn. destruct (handle s e) as [s1|]; cbn; [apply IH | reflexivity].
Qed.

Lemma handle_None_inv (s : SpringMassSystem) (e : Event) :
  handle s e = None -> e = Frame /\ mass s == 0.
Proof.
  destruct e; cbn; try discriminate. intros H. split; [reflexivity|].
  destruct (Qeq_bool (mass s) 0) eqn:E; [now apply Qeq_bool_iff|].
  apply Qeq_bool_neq in E. rewrite (update_after_frame s E) in H.
  discriminate.
Qed.

(** X1.  The event loop fails in exactly one way: a frame arrives while the
    mass is zero, and [update] divides by it. *)
Theorem run_fails_only_on_zero_mass (s : SpringMassSystem)
    (es : list Event) :
  run s es = None <->
  exists es1 es2 s1,
    es = es1 ++ Frame :: es2 /\ run s es1 = Some s1 /\ mass s1 == 0.
Proof.
  split.
  - revert s. induction es as [|e es IH]; intros s H; [discriminate|].
    cbn in H. destruct (handle s e) as [s1|] eqn:He.
    + cbn in H. destruct (IH s1 H) as (es1 & es2 & s2 & -> & Hr & Hm).
      exists (e :: es1), es2, s2. split; [reflexivity|]. split; [|exact Hm].
      cbn. now rewrite He.
    + apply handle_None_inv in He as [-> Hm].
      exists [], es, s. now repeat split.
  - intros (es1 & es2 & s1 & -> & Hr & Hm).
    rewrite run_app, Hr. cbn. now rewrite (update_mass_zero s1 Hm).
Qed.

Lemma handle_params_in_range (s s' : SpringMassSystem) (e : Event) :
  slider_event e -> handle s e = Some s' ->
  params_in_range s -> params_in_range s'.
Proof.
  unfold params_in_range. intros He H Hp. destruct e; cbn in H, He.
  - apply update_params in H as (-> & -> & -> & -> & _). exact Hp.
  - injection H as <-. exact Hp.
  - injection H as <-. cbn. tauto.
  - injection H as <-. cbn. tauto.
  - injection H as <-. cbn. tauto.
  - injection H as <-. cbn. tauto.
Qed.

(** X2.  As long as every slider value lies within the range of its slider, no
    sequence of frames, slider moves and resets makes the program fail, and
    the four parameters stay within those ranges. *)
Theorem slider_runs_never_fail (es : list Event)
    (Hsliders : Forall slider_event es) :
  exists s, run init es = Some s /\ params_in_range s.
Proof.
  assert (Hgen : forall s, params_in_range s ->
            exists s', run s es = Some s' /\ params_in_range s').
  { induction Hsliders as [|e es He Hes IH]; intros s Hp.
    - exists s. now split.
    - assert (Hstep : exists s1, handle s e = Some s1).
      { destruct e; cbn; eauto. exists (after_frame s).
        apply update_after_frame. intros E.
        destruct Hp as ([Hlo _] & _). rewrite E in Hlo.
        revert Hlo. now vm_compute. }
      destruct Hstep as [s1 H1].
      destruct (IH s1 (handle_params_in_range s s1 e He H1 Hp))
        as (s' & Hrun & Hp').
      exists s'. split; [|exact Hp']. cbn. now rewrite H1. }
  apply Hgen. unfold params_in_range. cbn.
  repeat split; vm_compute; discriminate.
Qed.

Lemma slider_runs_never_fail_witness :
  exists s,
    run init [MassChanged 0.1; Frame; TimeChanged 2.0; Frame; ResetClicked;
              DampingChanged 0.0; Frame] = Some s /\
    params_in_range s.
Proof.
  apply slider_runs_never_fail.
  repeat constructor; vm_compute; discriminate.
Defined.

(** ** The cursor on a running program *)

Lemma recorded_by_history (s : SpringMassSystem)
    (rs : list SpringMassSystem) :
  recorded_by s rs ->
  holds_history s (map (fun r => (current_time r, velocity r)) rs).
Proof.
  intros [Ht Hv]. unfold holds_history.
  rewrite !map_map. cbn [fst snd]. now split.
Qed.

Lemma on_mouse_move_inside (s : SpringMassSystem) (h : list (Q * Q))
    (q : Q) :
  holds_history s h ->
  on_mouse_move s (mkMouseEvent true q) = cursor_at (map fst h) (map snd h) q.
Proof.
  intros [Ht Hv]. unfold on_mouse_move. cbn [inaxes_velocity_plot xdata].
  now rewrite Ht, Hv.
Qed.

(** X3.  In every state the program can reach, [on_mouse_move] returns:
    neither [min] nor [index] nor the two subscripts raise. The marker is
    hidden exactly when the pointer is outside the velocity plot or nothing
    has been recorded; otherwise it sits on the time and the velocity found at
    one and the same position of the two deques. *)
Theorem on_mouse_move_never_fails (es : list Event) (s : SpringMassSystem)
    (event : MouseEvent) (Hrun : run init es = Some s) :
  (on_mouse_move s event = Some Hidden /\
   (inaxes_velocity_plot event = false \/
    Deque.to_list (time_data s) = [])) \/
  (exists i t v,
     on_mouse_move s event = Some (Shown t v) /\
     inaxes_velocity_plot event = true /\
     nth_error (Deque.to_list (time_data s)) i = Some t /\
     nth_error (Deque.to_list (velocity_data s)) i = Some v).
Proof.
  destruct (run_well_formed es init s well_formed_init Hrun)
    as (_ & _ & _ & rs & Hrec).
  pose proof (recorded_by_history s rs Hrec) as Hh.
  destruct event as [[|] q].
  - set (h := map (fun r => (current_time r, velocity r)) rs) in *.
    rewrite (on_mouse_move_inside s h q Hh).
    destruct Hh as [Ht Hv]. rewrite Ht, Hv.
    destruct h as [|p h'] eqn:Eh.
    + left. split; [reflexivity|]. now right.
    + right.
      destruct (cursor_at_nearest (p :: h') q) as (i & t & v & Hi & Hc & _);
        [discriminate|].
      exists i, t, v. split; [exact Hc|]. split; [reflexivity|].
      rewrite !nth_error_map, Hi. now split.
  - left. split; [reflexivity|]. now left.
Qed.

Lemma on_mouse_move_never_fails_witness :
  exists s c,
    run init [Frame; Frame] = Some s /\
    on_mouse_move s (mkMouseEvent true 0.03) = Some c.
Proof.
  destruct (run init [Frame; Frame]) as [s|] eqn:E.
  - exists s.
    destruct (on_mouse_move_never_fails [Frame; Frame] s
                (mkMouseEvent true 0.03) E)
      as [[H _]|(i & t & v & H & _)]; eexists; (split; [reflexivity|exact H]).
  - vm_compute in E. discriminate E.
Defined.

(** X4.  When the pointer is exactly at a recorded time, the marker sits on a
    sample with that time. *)
Theorem on_mouse_move_exact_hit (es : list Event) (s : SpringMassSystem)
    (q : Q) (Hrun : run init es = Some s)
    (Hhit : exists t0, In t0 (Deque.to_list (time_data s)) /\ t0 == q) :
  exists t v,
    on_mouse_move s (mkMouseEvent true q) = Some (Shown t v) /\ t == q.
Proof.
  destruct (run_well_formed es init s well_formed_init Hrun)
    as (_ & _ & _ & rs & Hrec).
  pose proof (recorded_by_history s rs Hrec) as Hh.
  set (h := map (fun r => (current_time r, velocity r)) rs) in *.
  destruct Hhit as (t0 & Hin & Ht0).
  destruct Hh as [Ht Hv]. rewrite Ht in Hin.
  apply in_map_iff in Hin as ([t1 v1] & E1 & Hin1). cbn in E1. subst t1.
  apply In_nth_error in Hin1 as [j Hj].
  assert (Hne : h <> []) by (intros E; rewrite E in Hj; now destruct j).
  destruct (cursor_at_nearest h q Hne) as (i & t & v & _ & Hc & Hmin & _).
  exists t, v. split.
  - now rewrite (on_mouse_move_inside s h q (conj Ht Hv)).
  - specialize (Hmin j t0 v1 Hj).
    assert (H0 : Qabs (t0 - q) == 0).
    { rewrite Ht0. setoid_replace (q - q) with 0 by ring. reflexivity. }
    rewrite H0 in Hmin. apply Qabs_Qle_condition in Hmin. lra.
Qed.

Lemma on_mouse_move_exact_hit_witness :
  exists s t v,
    run init [Frame; Frame; Frame] = Some s /\
    on_mouse_move s (mkMouseEvent true 0.04) = Some (Shown t v) /\
    t == 0.04.
Proof.
  destruct (run init [Frame; Frame; Frame]) as [s|] eqn:E.
  - destruct (on_mouse_move_exact_hit [Frame; Frame; Frame] s 0.04 E)
      as (t & v & Hc & Ht).
    + vm_compute in E. injection E as <-.
      eexists. split; [right; left; reflexivity|].
      vm_compute. reflexivity.
    + exists s, t, v. split; [reflexivity|]. now split.
  - vm_compute in E. discriminate E.
Defined.

(** ** What a reset forgets *)

Lemma handle_dt (s s' : SpringMassSystem) (e : Event) :
  handle s e = Some s' -> dt s' = dt s.
Proof.
  destruct e; cbn; intros H; try (now injection H as <-).
  now apply update_params in H.
Qed.

Lemma run_dt (es : list Event) (s s' : SpringMassSystem) :
  run s es = Some s' -> dt s' = dt s.
Proof.
  revert s. induction es as [|e es IH]; intros s H.
  - cbn in H. now injection H as <-.
  - cbn in H. destruct (handle s e) as [s1|] eqn:He; [|discriminate].
    cbn in H. rewrite (IH s1 H). now apply (handle_dt s s1 e).
Qed.

(** X5.  Whatever happened before, the state after a reset is the initial
    state with the sliders where they are now; so the program behaves after a
    reset as a freshly started one with the same slider settings. *)
Theorem reset_is_fresh_start (es : list Event) (s : SpringMassSystem)
    (Hrun : run init es = Some s) :
  reset s =
    configure (mass s) (resilience s) (damping s) (time_modifier s) /\
  forall es',
    run s (ResetClicked :: es') =
    run (configure (mass s) (resilience s) (damping s) (time_modifier s)) es'.
Proof.
  assert (E : reset s =
    configure (mass s) (resilience s) (damping s) (time_modifier s)).
  { destruct (run_well_formed es init s well_formed_init Hrun)
      as (Hmt & Hmv & _).
    pose proof (run_dt es init s Hrun) as Hdt. clear Hrun.
    destruct s as [m k c t d ts x v [nt lt] [nv lv] a].
    cbn [dt time_data velocity_data Deque.maxlen] in Hmt, Hmv, Hdt.
    subst nt nv d. reflexivity. }
  split; [exact E|]. intros es'. cbn. now rewrite E.
Qed.

Lemma reset_is_fresh_start_witness :
  exists s,
    run init [Frame; MassChanged 3; Frame; TimeChanged 0.5; Frame] = Some s /\
    reset s = configure 3 10.0 0.5 0.5.
Proof.
  destruct (run init [Frame; MassChanged 3; Frame; TimeChanged 0.5; Frame])
    as [s|] eqn:E.
  - exists s. split; [reflexivity|].
    rewrite (proj1 (reset_is_fresh_start _ s E)).
    vm_compute in E. injection E as <-. reflexivity.
  - vm_compute in E. discriminate E.
Defined.

(** X6.  Reset and the sliders do not get in each other's way: resetting twice
    is resetting once, a reset before or after a slider move gives the same
    state, a later value of a slider replaces the earlier one, and moves of
    two different sliders can be swapped. *)
Theorem reset_and_setters_compose (s : SpringMassSystem) (a b : Q) :
  reset (reset s) = reset s /\
  (reset (update_mass s a) = update_mass (reset s) a /\
   reset (update_resilience s a) = update_resilience (reset s) a /\
   reset (update_damping s a) = update_damping (reset s) a /\
   reset (update_time_modifier s a) = update_time_modifier (reset s) a) /\
  (update_mass (update_mass s a) b = update_mass s b /\
   update_resilience (update_resilience s a) b = update_resilience s b /\
   update_damping (update_damping s a) b = update_damping s b /\
   update_time_modifier (update_time_modifier s a) b =
     update_time_modifier s b) /\
  (update_mass (update_resilience s a) b =
     update_resilience (update_mass s b) a /\
   update_mass (update_damping s a) b = update_damping (update_mass s b) a /\
   update_mass (update_time_modifier s a) b =
     update_time_modifier (update_mass s b) a /\
   update_resilience (update_damping s a) b =
     update_damping (update_resilience s b) a /\
   update_resilience (update_time_modifier s a) b =
     update_time_modifier (update_resilience s b) a /\
   update_damping (update_time_modifier s a) b =
     update_time_modifier (update_damping s b) a).
Proof.
  repeat split; reflexivity.
Qed.

(** ** The motion *)

Lemma after_frame_shadow_energy (s : SpringMassSystem) :
  ~ mass s == 0 -> damping s == 0 ->
  shadow_energy (after_frame s) == shadow_energy s.
Proof.
  intros Hm Hc. unfold shadow_energy. cbn. rewrite Hc. field. exact Hm.
Qed.

(** X7.  Without damping the frames keep [shadow_energy] exactly: after any
    number of frames it has the value it started with. *)
Theorem undamped_frames_keep_shadow_energy (n : nat)
    (s s' : SpringMassSystem)
    (Hdamping : damping s == 0) (Hticks : ticks n s = Some s') :
  shadow_energy s' == shadow_energy s.
Proof.
  revert s' Hticks. induction n as [|n IH]; intros s' H.
  - cbn in H. injection H as <-. reflexivity.
  - apply ticks_S_inv in H as (s1 & H1 & H2).
    destruct (ticks_params _ _ _ H1) as (_ & _ & Ec & _).
    apply update_Some_inv in H2 as [Hm ->].
    rewrite after_frame_shadow_energy; [now apply IH | exact Hm |].
    now rewrite Ec.
Qed.

Lemma undamped_frames_keep_shadow_energy_witness :
  exists s',
    ticks 3 (update_damping init 0) = Some s' /\
    shadow_energy s' == 40.
Proof.
  destruct (ticks 3 (update_damping init 0)) as [s'|] eqn:E.
  - exists s'. split; [reflexivity|].
    rewrite (undamped_frames_keep_shadow_energy 3 (update_damping init 0) s');
      [vm_compute; reflexivity | reflexivity | exact E].
  - vm_compute in E. discriminate E.
Defined.

(** X8.  A mass lying still at the equilibrium position stays there, whatever
    the parameters. *)
Theorem rest_stays_at_rest (n : nat) (s s' : SpringMassSystem)
    (Hx : x_position s == 0) (Hv : velocity s == 0)
    (Hticks : ticks n s = Some s') :
  x_position s' == 0 /\ velocity s' == 0.
Proof.
  revert s' Hticks. induction n as [|n IH]; intros s' H.
  - cbn in H. injection H as <-. now split.
  - apply ticks_S_inv in H as (s1 & H1 & H2).
    destruct (IH s1 H1) as [Hx1 Hv1].
    apply update_Some_inv in H2 as [Hm ->]. cbn.
    rewrite Hx1, Hv1. split; field; exact Hm.
Qed.

Lemma rest_stays_at_rest_witness :
  exists s',
    ticks 4 (set_x_position init 0) = Some s' /\
    x_position s' == 0 /\ velocity s' == 0.
Proof.
  destruct (ticks 4 (set_x_position init 0)) as [s'|] eqn:E.
  - exists s'. split; [reflexivity|].
    apply (rest_stays_at_rest 4 (set_x_position init 0) s');
      [reflexivity | reflexivity | exact E].
  - vm_compute in E. discriminate E.
Defined.

(** ** The flag and the clock *)

Lemma handle_flag_tracks_time (s s' : SpringMassSystem) (e : Event) :
  time_forward e -> handle s e = Some s' ->
  flag_tracks_time s -> flag_tracks_time s'.
Proof.
  unfold flag_tracks_time. intros Hfwd H (Hdt & Htm & Hiff).
  destruct e; cbn in H, Hfwd; try (injection H as <-; now cbn).
  - pose proof (update_flag _ _ H) as Hflag.
    pose proof (update_params _ _ H) as (_ & _ & _ & Etm & Edt).
    apply update_Some_inv in H as [_ ->].
    rewrite Etm, Edt. split; [exact Hdt|]. split; [exact Htm|].
    assert (Hstep : current_time s <= current_time (after_frame s)).
    { cbn. rewrite <- (Qplus_0_r (current_time s)) at 1.
      apply Qplus_le_r. now apply Qmult_le_0_compat. }
    rewrite Hflag, andb_true_iff, Qle_bool_iff, Hiff. split.
    + now intros [_ H10].
    + intros H10. split; [|exact H10].
      now apply Qle_trans with (current_time (after_frame s)).
Qed.

(** X9.  As long as the speed is never set to a negative value, the recording
    flag is true exactly when the elapsed time is at most 10: the flag never
    disagrees with the clock. *)
Theorem flag_agrees_with_clock (es : list Event) (s : SpringMassSystem)
    (Hforward : Forall time_forward es) (Hrun : run init es = Some s) :
  velocity_plot_active s = true <-> current_time s <= 10.
Proof.
  assert (Hgen : forall s0, flag_tracks_time s0 -> run s0 es = Some s ->
                 flag_tracks_time s).
  { clear Hrun. induction Hforward as [|e es He Hes IH]; intros s0 H0 H.
    - cbn in H. now injection H as <-.
    - cbn in H. destruct (handle s0 e) as [s1|] eqn:E; [|discriminate].
      cbn in H. apply (IH s1); [|exact H].
      now apply (handle_flag_tracks_time s0 s1 e). }
  apply (Hgen init); [|exact Hrun].
  unfold flag_tracks_time. cbn.
  split; [discriminate|]. split; [discriminate|].
  split; [discriminate | reflexivity].
Qed.

Lemma flag_agrees_with_clock_witness :
  velocity_plot_active after_overrun = true <->
  current_time after_overrun <= 10.
Proof.
  apply (flag_agrees_with_clock overrun).
  - repeat constructor. vm_compute. discriminate.
  - vm_compute. reflexivity.
Defined.

(** With a negative speed the clock runs backwards and the two do
    disagree: frozen above 10 s, the elapsed time comes back below it while
    the flag stays false. *)
Example flag_disagrees_when_time_runs_backwards :
  exists s,
    run after_overrun [TimeChanged (-200); Frame] = Some s /\
    velocity_plot_active s = false /\ current_time s <= 10.
Proof.
  eexists. split; [vm_compute; reflexivity|].
  split; vm_compute; [reflexivity | discriminate].
Qed.

(** ** The trace at normal speed and faster *)

(** X10.  From a fresh start with the speed at 1.0 or above, recording ends
    before the deques are full: while the flag is true at most [max_points]
    frames have passed and the deques hold the sample of every one of them,
    none dropped. *)
Theorem full_trace_kept_at_normal_speed (m k c ts : Q) (n : nat)
    (s : SpringMassSystem)
    (Hspeed : 1 <= ts) (Hticks : ticks n (configure m k c ts) = Some s)
    (Hrecording : velocity_plot_active s = true) :
  (n <= max_points)%nat /\
  Deque.to_list (time_data s) =
    map current_time (trajectory n (configure m k c ts)) /\
  Deque.to_list (velocity_data s) =
    map velocity (trajectory n (configure m k c ts)).
Proof.
  set (s0 := configure m k c ts) in *.
  assert (Hn : (n <= max_points)%nat).
  { destruct n as [|n]; [lia|].
    pose proof (ticks_current_time _ _ _ Hticks) as Ht.
    apply ticks_S_inv in Hticks as (s1 & _ & H2).
    rewrite (update_flag _ _ H2) in Hrecording.
    apply andb_true_iff in Hrecording as [_ Hle].
    apply Qle_bool_iff in Hle. rewrite Ht in Hle.
    change (current_time s0) with 0 in Hle.
    change (dt s0 * time_modifier s0) with (0.02 * ts) in Hle.
    assert (Hq : inject_Z (Z.of_nat (S n)) <= 500).
    { assert (H0 : 0 <= inject_Z (Z.of_nat (S n))).
      { change 0 with (inject_Z 0). rewrite <- Zle_Qle. lia. }
      pose proof (Qmult_le_compat_r 1 ts _ Hspeed H0) as Hmul.
      lra. }
    change 500 with (inject_Z 500) in Hq. rewrite <- Zle_Qle in Hq.
    unfold max_points. lia. }
  split; [exact Hn|].
  destruct (recording_keeps_latest s0 n s eq_refl eq_refl eq_refl eq_refl
              Hticks Hrecording) as [Ht Hv].
  replace (n - max_points)%nat with O in Ht, Hv by lia.
  now split.
Qed.

Lemma full_trace_kept_at_normal_speed_witness :
  exists s,
    ticks 3 init = Some s /\
    Deque.to_list (time_data s) = map current_time (trajectory 3 init).
Proof.
  destruct (ticks 3 init) as [s|] eqn:E.
  - exists s. split; [reflexivity|].
    apply (full_trace_kept_at_normal_speed 1.0 10.0 0.5 1.0 3 s).
    + vm_compute. discriminate.
    + exact E.
    + vm_compute in E. injection E as <-. reflexivity.
  - vm_compute in E. discriminate E.
Defined.

(** * The figure *)

(** ** The handlers with and without their artists *)

Lemma gui_update_inv (g g' : Gui.t) :
  Gui.update g = Some g' ->
  update (Gui.system g) = Some (Gui.system g') /\
  Gui.plot g' =
    Gui.set_mass_point
      (Gui.set_spring
         (if velocity_plot_active (Gui.system g')
          then Gui.set_velocity_line (Gui.plot g)
                 (Deque.to_list (time_data (Gui.system g')),
                  Deque.to_list (velocity_data (Gui.system g')))
          else Gui.plot g)
         (Geometry.spring_of (Gui.system g')))
      ([x_position (Gui.system g')], [0]).
Proof.
  destruct g as [[m k c t d ts x v td vd a] p].
  unfold Gui.update, update, Geometry.spring_of.
  generalize Geometry.create_spring. intros coil.
  cbn -[Qplus Qmult Qminus Qopp Qdiv Qle_bool py_div Deque.append].
  destruct (py_div _ m) as [acc|]; cbn [bind]; [|discriminate].
  destruct a; [destruct (Qle_bool _ 10)|];
    intros H; injection H as <-; split; reflexivity.
Qed.

Lemma gui_update_total (g : Gui.t) (s' : SpringMassSystem) :
  update (Gui.system g) = Some s' ->
  exists g', Gui.update g = Some g' /\ Gui.system g' = s'.
Proof.
  intros H. destruct (Gui.update g) as [g'|] eqn:E.
  - exists g'. split; [reflexivity|].
    apply gui_update_inv in E as [E _]. congruence.
  - exfalso. revert E. unfold Gui.update.
    apply update_Some_inv in H as [Hm _].
    rewrite (py_div_nonzero _ _ Hm). discriminate.
Qed.

Lemma gui_reset_system (g : Gui.t) :
  Gui.system (Gui.reset g) = reset (Gui.system g).
Proof. reflexivity. Qed.

(** What [Gui.on_mouse_move] leaves in the artists, by what
    [on_mouse_move] finds. *)
Lemma gui_on_mouse_move_inv (g g' : Gui.t) (event : MouseEvent) :
  Gui.on_mouse_move g event = Some g' ->
  Gui.system g' = Gui.system g /\
  ((on_mouse_move (Gui.system g) event = Some Hidden /\
    Gui.plot g' =
      Gui.set_cursor_text_visible
        (Gui.set_cursor_point_visible (Gui.plot g) false) false) \/
   (exists t v,
      on_mouse_move (Gui.system g) event = Some (Shown t v) /\
      Gui.plot g' =
        Gui.set_cursor_text_visible
          (Gui.set_cursor_text
             (Gui.set_cursor_point_visible
                (Gui.set_cursor_point (Gui.plot g) ([t], [v])) true)
             (Some (t, v))) true)).
Proof.
  destruct g as [s p]. unfold Gui.on_mouse_move, on_mouse_move, cursor_at.
  cbv [Gui.system Gui.plot].
  destruct (inaxes_velocity_plot event).
  - destruct (py_not _ || py_not _).
    + intros H. injection H as <-. split; [reflexivity|]. left. now split.
    + destruct (py_min _) as [m|]; cbv [bind]; [|discriminate].
      destruct (py_index _ m) as [i|]; [|discriminate].
      destruct (nth_error (Deque.to_list (time_data s)) i) as [t|];
        [|discriminate].
      destruct (nth_error (Deque.to_list (velocity_data s)) i) as [v|];
        [|discriminate].
      intros H. injection H as <-. split; [reflexivity|].
      right. exists t, v. now split.
  - intros H. injection H as <-. split; [reflexivity|]. left. now split.
Qed.

Lemma gui_on_mouse_move_total (g : Gui.t) (event : MouseEvent)
    (c : Cursor) :
  on_mouse_move (Gui.system g) event = Some c ->
  exists g', Gui.on_mouse_move g event = Some g'.
Proof.
  destruct g as [s p]. unfold Gui.on_mouse_move, on_mouse_move, cursor_at.
  cbv [Gui.system Gui.plot].
  destruct (inaxes_velocity_plot event); [|eauto].
  destruct (py_not _ || py_not _); [eauto|].
  destruct (py_min _) as [m|]; cbv [bind]; [|discriminate].
  destruct (py_index _ m) as [i|]; [|discriminate].
  destruct (nth_error (Deque.to_list (time_data s)) i) as [t|];
    [|discriminate].
  destruct (nth_error (Deque.to_list (velocity_data s)) i) as [v|];
    [|discriminate].
  eauto.
Qed.

Lemma gui_handle_system (g g' : Gui.t) (i : Gui.Input) :
  Gui.handle g i = Some g' ->
  run (Gui.system g) (Gui.core_events [i]) = Some (Gui.system g').
Proof.
  destruct i as [e|event]; cbn [Gui.core_events run].
  - destruct e; cbn [Gui.handle handle]; intros H;
      try (injection H as <-; reflexivity).
    apply gui_update_inv in H as [H _]. now rewrite H.
  - cbn [Gui.handle]. intros H.
    apply gui_on_mouse_move_inv in H as [H _]. now rewrite H.
Qed.

Lemma gui_core_events_cons (i : Gui.Input) (ins : list Gui.Input) :
  Gui.core_events (i :: ins) = Gui.core_events [i] ++ Gui.core_events ins.
Proof. destruct i; reflexivity. Qed.

Lemma gui_run_system (ins : list Gui.Input) (g g' : Gui.t) :
  Gui.run g ins = Some g' ->
  run (Gui.system g) (Gui.core_events ins) = Some (Gui.system g').
Proof.
  revert g. induction ins as [|i ins IH]; intros g H.
  - cbn in H. now injection H as <-.
  - cbn [Gui.run] in H.
    destruct (Gui.handle g i) as [g1|] eqn:E; [|discriminate]. cbn in H.
    rewrite gui_core_events_cons, run_app, (gui_handle_system _ _ _ E).
    cbn [bind]. now apply IH.
Qed.

Lemma gui_handle_core (g g' : Gui.t) (e : Event) :
  Gui.handle g (Gui.Core e) = Some g' ->
  handle (Gui.system g) e = Some (Gui.system g').
Proof.
  intros H. apply gui_handle_system in H. cbn in H.
  now destruct (handle (Gui.system g) e).
Qed.

Lemma gui_handle_core_total (g : Gui.t) (e : Event) (s' : SpringMassSystem) :
  handle (Gui.system g) e = Some s' ->
  exists g', Gui.handle g (Gui.Core e) = Some g'.
Proof.
  destruct e; cbn [handle Gui.handle]; eauto.
  intros H. destruct (gui_update_total g s' H) as (g' & Hg & _). eauto.
Qed.

(** ** The velocity line *)

Lemma gui_handle_line (g g' : Gui.t) (i : Gui.Input) :
  Gui.handle g i = Some g' ->
  line_mirrors_history g -> line_mirrors_history g'.
Proof.
  unfold line_mirrors_history. intros H Hl.
  destruct i as [e|event].
  - destruct e; cbn [Gui.handle] in H;
      try (injection H as <-; exact Hl).
    + apply gui_update_inv in H as [Hu ->].
      apply update_Some_inv in Hu as [_ Hs']. rewrite Hs'.
      cbn [Gui.set_mass_point Gui.set_spring Gui.velocity_line].
      rewrite after_frame_time_data, after_frame_velocity_data.
      destruct (velocity_plot_active (after_frame (Gui.system g)));
        [reflexivity | exact Hl].
    + injection H as <-. reflexivity.
  - cbn [Gui.handle] in H.
    apply gui_on_mouse_move_inv in H as [-> [[_ ->]|(t & v & _ & ->)]];
      exact Hl.
Qed.

Lemma gui_run_line (ins : list Gui.Input) (g g' : Gui.t) :
  Gui.run g ins = Some g' ->
  line_mirrors_history g -> line_mirrors_history g'.
Proof.
  revert g. induction ins as [|i ins IH]; intros g H Hl.
  - cbn in H. now injection H as <-.
  - cbn [Gui.run] in H.
    destruct (Gui.handle g i) as [g1|] eqn:E; [|discriminate]. cbn in H.
    apply (IH g1 H). now apply (gui_handle_line g g1 i).
Qed.

(** X11.  Whatever the program has been through, the velocity line on the
    screen holds exactly the samples of the two deques, in their order: a
    frame that records redraws it, a reset empties it together with the
    deques, and nothing else touches either. *)
Theorem velocity_line_shows_history (ins : list Gui.Input) (g : Gui.t)
    (Hrun : Gui.run Gui.init ins = Some g) :
  Gui.velocity_line (Gui.plot g) =
  (Deque.to_list (time_data (Gui.system g)),
   Deque.to_list (velocity_data (Gui.system g))).
Proof.
  apply (gui_run_line ins Gui.init g Hrun). reflexivity.
Qed.

Lemma velocity_line_shows_history_witness :
  exists g,
    Gui.run Gui.init
      [Gui.Core Frame; Gui.MouseMoved (mkMouseEvent true 1);
       Gui.Core Frame] = Some g /\
    Gui.velocity_line (Gui.plot g) =
    (Deque.to_list (time_data (Gui.system g)),
     Deque.to_list (velocity_data (Gui.system g))) /\
    length (fst (Gui.velocity_line (Gui.plot g))) = 2%nat.
Proof.
  set (ins := [Gui.Core Frame; Gui.MouseMoved (mkMouseEvent true 1);
               Gui.Core Frame]).
  assert (Hsome : exists g, Gui.run Gui.init ins = Some g).
  { destruct (gui_update_total Gui.init (after_frame init)) as (g1 & H1 & E1);
      [apply update_after_frame; vm_compute; discriminate|].
    cbn [ins Gui.run Gui.handle]. rewrite H1. cbn [bind].
    destruct (gui_on_mouse_move_total g1 (mkMouseEvent true 1)
                (Shown (current_time (after_frame init))
                       (velocity (after_frame init)))) as (g2 & H2).
    { rewrite E1. vm_compute. reflexivity. }
    rewrite H2. cbn [bind].
    pose proof (gui_on_mouse_move_inv _ _ _ H2) as [E2 _].
    destruct (gui_update_total g2 (after_frame (after_frame init)))
      as (g3 & H3 & E3).
    { replace (Gui.system g2) with (after_frame init) by congruence.
      apply update_after_frame. vm_compute. discriminate. }
    rewrite H3. cbn [bind]. now exists g3. }
  destruct Hsome as [g Hg]. exists g. split; [exact Hg|].
  pose proof (velocity_line_shows_history ins g Hg) as Hl.
  split; [exact Hl|]. rewrite Hl. cbn [fst].
  apply gui_run_system in Hg. cbn [ins Gui.core_events] in Hg.
  destruct g as [s p]. cbn [Gui.system] in *.
  vm_compute in Hg. injection Hg as <-. reflexivity.
Defined.

(** ** The cursor marker and its label *)

Lemma gui_handle_cursor (g g' : Gui.t) (i : Gui.Input) :
  Gui.handle g i = Some g' -> cursor_consistent g -> cursor_consistent g'.
Proof.
  unfold cursor_consistent. intros H [Hvis Hlabel].
  destruct i as [e|event].
  - destruct e; cbn [Gui.handle] in H;
      try (injection H as <-; now split).
    apply gui_update_inv in H as [_ ->].
    destruct (velocity_plot_active (Gui.system g')); now split.
  - cbn [Gui.handle] in H.
    apply gui_on_mouse_move_inv in H as [_ [[_ ->]|(t & v & _ & ->)]].
    + split; [reflexivity | exact Hlabel].
    + split; [reflexivity|]. cbn. intros t' v' E. now injection E as <- <-.
Qed.

(** X12.  In every state the program can reach, the cursor marker and its
    label are visible together or hidden together, and once a label has been
    written it names the very sample the marker sits on. *)
Theorem cursor_marker_and_label_agree (ins : list Gui.Input) (g : Gui.t)
    (Hrun : Gui.run Gui.init ins = Some g) :
  Gui.cursor_point_visible (Gui.plot g) =
  Gui.cursor_text_visible (Gui.plot g) /\
  forall t v, Gui.cursor_text (Gui.plot g) = Some (t, v) ->
              Gui.cursor_point (Gui.plot g) = ([t], [v]).
Proof.
  assert (Hgen : forall g0, cursor_consistent g0 ->
                 Gui.run g0 ins = Some g -> cursor_consistent g).
  { clear Hrun. induction ins as [|i ins IH]; intros g0 H0 H.
    - cbn in H. now injection H as <-.
    - cbn [Gui.run] in H.
      destruct (Gui.handle g0 i) as [g1|] eqn:E; [|discriminate].
      cbn in H. apply (IH g1); [|exact H].
      now apply (gui_handle_cursor g0 g1 i). }
  apply (Hgen Gui.init); [|exact Hrun].
  split; [reflexivity | discriminate].
Qed.

Lemma cursor_marker_and_label_agree_witness :
  exists g,
    Gui.run Gui.init [Gui.MouseMoved (mkMouseEvent true 1)] = Some g /\
    Gui.cursor_point_visible (Gui.plot g) =
    Gui.cursor_text_visible (Gui.plot g).
Proof.
  destruct (gui_on_mouse_move_total Gui.init (mkMouseEvent true 1) Hidden)
    as (g & Hg); [reflexivity|].
  exists g.
  assert (Hrun : Gui.run Gui.init [Gui.MouseMoved (mkMouseEvent true 1)]
                 = Some g) by (cbn [Gui.run Gui.handle]; now rewrite Hg).
  split; [exact Hrun|].
  apply (cursor_marker_and_label_agree _ g Hrun).
Defined.

(** ** The whole program *)

Lemma on_mouse_move_well_formed (s : SpringMassSystem) (event : MouseEvent) :
  well_formed s -> exists c, on_mouse_move s event = Some c.
Proof.
  intros (_ & _ & _ & rs & Hrec).
  pose proof (recorded_by_history s rs Hrec) as Hh.
  destruct event as [[|] q]; [|now exists Hidden].
  rewrite (on_mouse_move_inside s _ q Hh).
  destruct rs as [|r rs].
  - now exists Hidden.
  - destruct (cursor_at_nearest
                (map (fun r => (current_time r, velocity r)) (r :: rs)) q)
      as (i & t & v & _ & Hc & _); [discriminate|].
    now exists (Shown t v).
Qed.

(** X13.  No sequence of frames, resets, mouse moves and slider moves within
    the ranges of the sliders makes any handler raise: the program never stops
    on a [ZeroDivisionError], a [ValueError] or an [IndexError]. *)
Theorem program_never_raises (ins : list Gui.Input)
    (Hsliders : Forall slider_event (Gui.core_events ins)) :
  exists g, Gui.run Gui.init ins = Some g.
Proof.
  assert (Hgen : forall g0,
            params_in_range (Gui.system g0) -> well_formed (Gui.system g0) ->
            exists g, Gui.run g0 ins = Some g).
  { induction ins as [|i ins IH]; intros g0 Hp Hw; [now exists g0|].
    rewrite gui_core_events_cons in Hsliders.
    apply Forall_app in Hsliders as [Hi Hins].
    assert (Hstep : exists g1, Gui.handle g0 i = Some g1 /\
              params_in_range (Gui.system g1) /\
              well_formed (Gui.system g1)).
    { destruct i as [e|event].
      - cbn in Hi. inversion Hi as [|? ? He _]; subst.
        assert (Hcore : exists s1, handle (Gui.system g0) e = Some s1).
        { destruct e; cbn; eauto. exists (after_frame (Gui.system g0)).
          apply update_after_frame. intros E.
          destruct Hp as ([Hlo _] & _). rewrite E in Hlo.
          revert Hlo. now vm_compute. }
        destruct Hcore as [s1 Hs1].
        destruct (gui_handle_core_total g0 e s1 Hs1) as [g1 Hg1].
        exists g1. split; [exact Hg1|].
        apply gui_handle_core in Hg1. split.
        + now apply (handle_params_in_range (Gui.system g0) _ e).
        + now apply (handle_well_formed (Gui.system g0) _ e).
      - destruct (on_mouse_move_well_formed (Gui.system g0) event Hw)
          as [c Hc].
        destruct (gui_on_mouse_move_total g0 event c Hc) as [g1 Hg1].
        exists g1. split; [exact Hg1|].
        apply gui_on_mouse_move_inv in Hg1 as [-> _]. now split. }
    destruct Hstep as (g1 & Hg1 & Hp1 & Hw1).
    destruct (IH Hins g1 Hp1 Hw1) as [g Hg].
    exists g. cbn [Gui.run]. now rewrite Hg1. }
  apply Hgen; [|exact well_formed_init].
  unfold params_in_range. cbn. repeat split; vm_compute; discriminate.
Qed.

Lemma program_never_raises_witness :
  exists g,
    Gui.run Gui.init
      [Gui.MouseMoved (mkMouseEvent true 3); Gui.Core (MassChanged 0.1);
       Gui.Core Frame; Gui.MouseMoved (mkMouseEvent true 3);
       Gui.Core ResetClicked; Gui.MouseMoved (mkMouseEvent false 0);
       Gui.Core Frame] = Some g.
Proof.
  apply program_never_raises. cbn [Gui.core_events].
  repeat constructor; vm_compute; discriminate.
Defined.

(** ** The trace and the range of the plot *)

Lemma handle_within_window (s s' : SpringMassSystem) (e : Event) :
  time_forward e -> handle s e = Some s' ->
  within_window s -> within_window s'.
Proof.
  unfold within_window, Deque.to_list.
  intros Hfwd H (Hdt & Htm & Ht & Hall).
  destruct e; cbn in H, Hfwd; try (injection H as <-; now cbn).
  - pose proof (update_flag _ _ H) as Hflag.
    apply update_Some_inv in H as [_ ->].
    assert (Ht' : 0 <= current_time (after_frame s)).
    { cbn. rewrite <- (Qplus_0_r 0).
      apply Qplus_le_compat; [exact Ht | now apply Qmult_le_0_compat]. }
    split; [exact Hdt|]. split; [exact Htm|]. split; [exact Ht'|].
    rewrite after_frame_time_data.
    destruct (velocity_plot_active (after_frame s)); [|exact Hall].
    symmetry in Hflag. apply andb_true_iff in Hflag as [_ Hle].
    apply Qle_bool_iff in Hle.
    rewrite deque_append_items.
    assert (Hall' : Forall (fun t => 0 <= t <= 10)
              (Deque.items (time_data s) ++ [current_time (after_frame s)])).
    { apply Forall_app. split; [exact Hall|]. now repeat constructor. }
    destruct (_ <? _)%nat; [now apply Forall_tl | exact Hall'].
Qed.

Lemma run_within_window (es : list Event) (s s' : SpringMassSystem) :
  Forall time_forward es -> run s es = Some s' ->
  within_window s -> within_window s'.
Proof.
  revert s. induction es as [|e es IH]; intros s Hfwd H Hw.
  - cbn in H. now injection H as <-.
  - inversion Hfwd as [|? ? He Hes]; subst.
    cbn in H. destruct (handle s e) as [s1|] eqn:E; [|discriminate].
    cbn in H. apply (IH s1 Hes H).
    now apply (handle_within_window s s1 e).
Qed.

Lemma gui_handle_xlim (g g' : Gui.t) (i : Gui.Input) :
  Gui.handle g i = Some g' ->
  Gui.velocity_xlim (Gui.plot g) = (0, 10) ->
  Gui.velocity_xlim (Gui.plot g') = (0, 10).
Proof.
  intros H Hx. destruct i as [e|event].
  - destruct e; cbn [Gui.handle] in H;
      try (injection H as <-; exact Hx).
    + apply gui_update_inv in H as [_ ->].
      now destruct (velocity_plot_active (Gui.system g')).
    + injection H as <-. reflexivity.
  - cbn [Gui.handle] in H.
    apply gui_on_mouse_move_inv in H as [_ [[_ ->]|(t & v & _ & ->)]];
      exact Hx.
Qed.

Lemma gui_run_xlim (ins : list Gui.Input) (g g' : Gui.t) :
  Gui.run g ins = Some g' ->
  Gui.velocity_xlim (Gui.plot g) = (0, 10) ->
  Gui.velocity_xlim (Gui.plot g') = (0, 10).
Proof.
  revert g. induction ins as [|i ins IH]; intros g H Hx.
  - cbn in H. now injection H as <-.
  - cbn [Gui.run] in H.
    destruct (Gui.handle g i) as [g1|] eqn:E; [|discriminate]. cbn in H.
    apply (IH g1 H). now apply (gui_handle_xlim g g1 i).
Qed.

(** X14.  As long as the speed is never set to a negative value, every point
    of the velocity line lies within the horizontal range the velocity plot
    shows: the trace never runs off the plot to the left or to the right. *)
Theorem trace_stays_within_plot (ins : list Gui.Input) (g : Gui.t)
    (Hforward : Forall time_forward (Gui.core_events ins))
    (Hrun : Gui.run Gui.init ins = Some g) :
  Gui.velocity_xlim (Gui.plot g) = (0, 10) /\
  Forall (fun t => fst (Gui.velocity_xlim (Gui.plot g)) <= t <=
                   snd (Gui.velocity_xlim (Gui.plot g)))
         (fst (Gui.velocity_line (Gui.plot g))).
Proof.
  pose proof (gui_run_xlim ins Gui.init g Hrun eq_refl) as Hx.
  split; [exact Hx|]. rewrite Hx. cbn [fst snd].
  rewrite (gui_run_line ins Gui.init g Hrun eq_refl). cbn [fst].
  apply gui_run_system in Hrun.
  apply (run_within_window _ _ _ Hforward Hrun).
  unfold within_window. cbn.
  split; [discriminate|]. split; [discriminate|]. split; [discriminate|].
  constructor.
Qed.

Lemma trace_stays_within_plot_witness :
  exists g,
    Gui.run Gui.init [Gui.Core (TimeChanged 2.0); Gui.Core Frame] = Some g /\
    Forall (fun t => 0 <= t <= 10) (fst (Gui.velocity_line (Gui.plot g))).
Proof.
  destruct (gui_update_total (Gui.update_time_modifier Gui.init 2.0)
              (after_frame (update_time_modifier init 2.0)))
    as (g & Hg & _).
  { apply update_after_frame. vm_compute. discriminate. }
  exists g.
  assert (Hrun : Gui.run Gui.init
                   [Gui.Core (TimeChanged 2.0); Gui.Core Frame] = Some g)
    by (cbn [Gui.run Gui.handle bind]; now rewrite Hg).
  split; [exact Hrun|].
  assert (Hfwd : Forall time_forward
            (Gui.core_events [Gui.Core (TimeChanged 2.0); Gui.Core Frame])).
  { cbn [Gui.core_events]. repeat constructor. vm_compute. discriminate. }
  destruct (trace_stays_within_plot _ g Hfwd Hrun) as [Hx Hall].
  rewrite Hx in Hall. exact Hall.
Defined.

(** With a negative speed the trace does leave the plot on the left. *)
Example trace_leaves_plot_when_time_runs_backwards :
  exists s t,
    run init [TimeChanged (-1); Frame] = Some s /\
    Deque.to_list (time_data s) = [t] /\ t < 0.
Proof.
  eexists. eexists. split; [vm_compute; reflexivity|].
  split; [reflexivity | vm_compute; reflexivity].
Qed.

(** ** The coil and the mass *)

Module SpringFacts.

Import Reals Lra.
Import Geometry.
Local Open Scope R_scope.

Lemma create_spring_nth (x : R) (i : nat) :
  (i < 100)%nat ->
  nth i (fst (create_spring x)) 0 = INR i / 99 * x /\
  nth i (snd (create_spring x)) 0 = 0.2 * sin (2 * PI * 6 * (INR i / 99)).
Proof.
  intros Hi.
  assert (Ht : nth i (linspace 0 1 100) 0 = INR i / 99).
  { rewrite GeometryFacts.linspace_nth by lia.
    replace (INR (100 - 1)) with 99 by (rewrite INR_IZR_INZ; reflexivity).
    field. }
  unfold create_spring. cbn [fst snd].
  rewrite !GeometryFacts.nth_map_0
    by (rewrite GeometryFacts.linspace_length; exact Hi).
  rewrite Ht. split; reflexivity.
Qed.

Lemma INR_99 : INR 99 = 99.
Proof. rewrite INR_IZR_INZ. reflexivity. Qed.

(** X15.  The coil starts at the anchor (0, 0) and ends at (x, 0); in between
    its abscissae move from 0 towards [x] without ever turning back, so the
    coil never sticks out beyond the anchor or beyond the mass. *)
Theorem coil_runs_from_anchor_to_mass (x : R) :
  nth 0 (fst (create_spring x)) 0 = 0 /\
  nth 0 (snd (create_spring x)) 0 = 0 /\
  nth 99 (fst (create_spring x)) 0 = x /\
  nth 99 (snd (create_spring x)) 0 = 0 /\
  (forall i j, (i <= j < 100)%nat ->
     (0 <= x ->
      0 <= nth i (fst (create_spring x)) 0 <=
        nth j (fst (create_spring x)) 0 /\
      nth j (fst (create_spring x)) 0 <= x) /\
     (x <= 0 ->
      x <= nth j (fst (create_spring x)) 0 /\
      nth j (fst (create_spring x)) 0 <=
        nth i (fst (create_spring x)) 0 <= 0)).
Proof.
  destruct (create_spring_nth x 0) as [Hx0 Hy0]; [lia|].
  destruct (create_spring_nth x 99) as [Hx1 Hy1]; [lia|].
  rewrite INR_99 in Hx1, Hy1. cbn [INR] in Hx0, Hy0.
  split; [rewrite Hx0; field|].
  split.
  { rewrite Hy0. replace (2 * PI * 6 * (0 / 99)) with 0 by field.
    rewrite sin_0. lra. }
  split; [rewrite Hx1; field|].
  split.
  { rewrite Hy1. replace (2 * PI * 6 * (99 / 99)) with (IZR 12 * PI)
      by field.
    rewrite (sin_eq_0_1 (IZR 12 * PI)) by (now exists 12%Z). lra. }
  intros i j [Hij Hj].
  destruct (create_spring_nth x i) as [-> _]; [lia|].
  destruct (create_spring_nth x j) as [-> _]; [lia|].
  assert (H0 : 0 <= INR i) by apply pos_INR.
  assert (Hle : INR i <= INR j) by (apply le_INR; lia).
  assert (H99 : INR j <= 99) by (rewrite <- INR_99; apply le_INR; lia).
  split; intros Hx; nra.
Qed.



End SpringFacts.

(** * The trace in slow motion, and the pointer beside the trace *)

Local Open Scope Q_scope.



(** X18.  Mouse moves leave the simulation alone: the attributes after any
    inputs are those the frames, resets and slider moves among them produce on
    their own. *)
Theorem mouse_moves_do_not_disturb_simulation (ins : list Gui.Input)
    (g : Gui.t) (Hrun : Gui.run Gui.init ins = Some g) :
  run init (Gui.core_events ins) = Some (Gui.system g).
Proof.
  exact (gui_run_system ins Gui.init g Hrun).
Qed.

Lemma mouse_moves_do_not_disturb_simulation_witness :
  exists g,
    Gui.run Gui.init
      [Gui.MouseMoved (mkMouseEvent true 1); Gui.Core ResetClicked;
       Gui.MouseMoved (mkMouseEvent false 2)] = Some g /\
    Gui.system g = reset init.
Proof.
  destruct (gui_on_mouse_move_total Gui.init (mkMouseEvent true 1) Hidden)
    as (g1 & H1); [reflexivity|].
  pose proof (gui_on_mouse_move_inv _ _ _ H1) as [E1 _].
  destruct (gui_on_mouse_move_total (Gui.reset g1) (mkMouseEvent false 2)
              Hidden) as (g2 & H2); [reflexivity|].
  exists g2.
  assert (Hrun : Gui.run Gui.init
            [Gui.MouseMoved (mkMouseEvent true 1); Gui.Core ResetClicked;
             Gui.MouseMoved (mkMouseEvent false 2)] = Some g2).
  { cbn [Gui.run Gui.handle]. rewrite H1. cbn [bind]. now rewrite H2. }
  split; [exact Hrun|].
  pose proof (mouse_moves_do_not_disturb_simulation _ g2 Hrun) as Hs.
  cbn [Gui.core_events run handle bind] in Hs. now injection Hs as <-.
Defined.

(** ** Strictly increasing times *)

Lemma StronglySorted_lt_snoc (l : list Q) (x : Q) :
  StronglySorted Qlt l -> Forall (fun y => y < x) l ->
  StronglySorted Qlt (l ++ [x]).
Proof.
  induction l as [|a l IH]; intros Hs Hall; cbn.
  - repeat constructor.
  - apply StronglySorted_inv in Hs as [Hs Ha].
    inversion Hall as [|? ? Hax Hall']; subst.
    constructor; [now apply IH|].
    apply Forall_app. split; [exact Ha|]. now repeat constructor.
Qed.

Lemma StronglySorted_lt_tl (l : list Q) :
  StronglySorted Qlt l -> StronglySorted Qlt (tl l).
Proof.
  destruct l as [|a l]; cbn; [auto|].
  intros H. now apply StronglySorted_inv in H.
Qed.

Lemma StronglySorted_lt_nth (l : list Q) (i j : nat) (a b : Q) :
  StronglySorted Qlt l -> (i < j)%nat ->
  nth_error l i = Some a -> nth_error l j = Some b -> a < b.
Proof.
  intros Hs. revert i j. induction Hs as [|x l Hs IH Hx]; intros i j Hij Hi Hj.
  - now destruct i.
  - destruct j as [|j]; [lia|]. cbn in Hj. destruct i as [|i].
    + cbn in Hi. injection Hi as <-.
      rewrite Forall_forall in Hx. apply Hx. now apply nth_error_In with j.
    + cbn in Hi. apply (IH i j); [lia | exact Hi | exact Hj].
Qed.

Lemma handle_strictly_ordered (s s' : SpringMassSystem) (e : Event) :
  slider_event e -> handle s e = Some s' ->
  strictly_ordered s -> strictly_ordered s'.
Proof.
  intros He H (Hdt & Htm & Hs & Hb).
  unfold strictly_ordered, Deque.to_list in *.
  destruct e; cbn in H; cbn in He;
    try (injection H as <-; now cbn).
  - apply update_Some_inv in H as [_ ->].
    assert (Hstep : current_time s < current_time (after_frame s)).
    { cbn. rewrite <- (Qplus_0_r (current_time s)) at 1.
      apply Qplus_lt_r. now apply Qmult_lt_0_compat. }
    split; [exact Hdt|]. split; [exact Htm|].
    assert (Hlt : Forall (fun t => t < current_time (after_frame s))
                    (Deque.items (time_data s))).
    { eapply Forall_impl; [|exact Hb]. cbn beta. intros t Ht.
      now apply Qle_lt_trans with (current_time s). }
    assert (Hb' : Forall (fun t => t <= current_time (after_frame s))
                    (Deque.items (time_data s))).
    { eapply Forall_impl; [|exact Hlt]. cbn beta. intros t Ht.
      now apply Qlt_le_weak. }
    rewrite after_frame_time_data.
    destruct (velocity_plot_active (after_frame s)); [|now split].
    rewrite deque_append_items.
    assert (Hs1 : StronglySorted Qlt
              (Deque.items (time_data s) ++ [current_time (after_frame s)]))
      by now apply StronglySorted_lt_snoc.
    assert (Hb1 : Forall (fun t => t <= current_time (after_frame s))
              (Deque.items (time_data s) ++ [current_time (after_frame s)])).
    { apply Forall_app. split; [exact Hb'|].
      repeat constructor. apply Qle_refl. }
    destruct (_ <? _)%nat; [|now split].
    split; [now apply StronglySorted_lt_tl | now apply Forall_tl].
  - injection H as <-. cbn. repeat split; try assumption; constructor.
  - injection H as <-. cbn. repeat split; try assumption.
    destruct He as [He _]. lra.
Qed.

Lemma run_strictly_ordered (es : list Event) (s s' : SpringMassSystem) :
  Forall slider_event es -> run s es = Some s' ->
  strictly_ordered s -> strictly_ordered s'.
Proof.
  revert s. induction es as [|e es IH]; intros s Hall H Hord.
  - cbn in H. now injection H as <-.
  - inversion Hall as [|? ? He Hes]; subst.
    cbn in H. destruct (handle s e) as [s1|] eqn:E; [|discriminate].
    cbn in H. apply (IH s1 Hes H).
    now apply (handle_strictly_ordered s s1 e).
Qed.

Lemma strictly_ordered_init : strictly_ordered init.
Proof.
  unfold strictly_ordered. cbn.
  split; [reflexivity|]. split; [reflexivity|]. split; constructor.
Qed.

(** ** The pointer beside the trace *)

(** X19.  On a running program with slider values within their ranges: with
    the pointer at or to the left of the oldest recorded time the marker goes
    to the oldest sample, and with the pointer at or to the right of the
    newest recorded time it goes to the newest sample. *)
Theorem pointer_beside_trace_marks_end_sample (es : list Event)
    (s : SpringMassSystem) (q : Q)
    (Hsliders : Forall slider_event es) (Hrun : run init es = Some s) :
  (forall t0 v0,
     nth_error (Deque.to_list (time_data s)) 0 = Some t0 ->
     nth_error (Deque.to_list (velocity_data s)) 0 = Some v0 ->
     q <= t0 ->
     on_mouse_move s (mkMouseEvent true q) = Some (Shown t0 v0)) /\
  (forall n tn vn,
     length (Deque.to_list (time_data s)) = S n ->
     nth_error (Deque.to_list (time_data s)) n = Some tn ->
     nth_error (Deque.to_list (velocity_data s)) n = Some vn ->
     tn <= q ->
     on_mouse_move s (mkMouseEvent true q) = Some (Shown tn vn)).
Proof.
  destruct (run_well_formed es init s well_formed_init Hrun)
    as (_ & _ & _ & rs & Hrec).
  pose proof (recorded_by_history s rs Hrec) as Hh.
  destruct (run_strictly_ordered es init s Hsliders Hrun strictly_ordered_init)
    as (_ & _ & Hsorted & _).
  set (h := map (fun r => (current_time r, velocity r)) rs) in *.
  rewrite (on_mouse_move_inside s h q Hh).
  destruct Hh as [Ht Hv]. rewrite Ht in Hsorted. rewrite Ht, Hv.
  assert (Hpair : forall j a b,
            nth_error (map fst h) j = Some a ->
            nth_error (map snd h) j = Some b ->
            nth_error h j = Some (a, b)).
  { intros j a b Ha Hb. rewrite nth_error_map in Ha, Hb.
    destruct (nth_error h j) as [[a' b']|]; [|discriminate].
    cbn in Ha, Hb. congruence. }
  assert (Htime : forall j a b,
            nth_error h j = Some (a, b) -> nth_error (map fst h) j = Some a).
  { intros j a b Hj. now rewrite nth_error_map, Hj. }
  split.
  - intros t0 v0 Ht0 Hv0 Hq.
    pose proof (Hpair _ _ _ Ht0 Hv0) as H0.
    assert (Hne : h <> []) by (intros E; rewrite E in H0; discriminate).
    destruct (cursor_at_nearest h q Hne) as (i & t & v & Hi & Hc & _ & Hfirst).
    rewrite Hc. destruct i as [|i]; [congruence|]. exfalso.
    specialize (Hfirst O t0 v0 ltac:(lia) H0).
    pose proof (StronglySorted_lt_nth _ O (S i) t0 t Hsorted ltac:(lia)
                  Ht0 (Htime _ _ _ Hi)) as Hlt.
    rewrite !Qabs_pos in Hfirst by lra. lra.
  - intros n tn vn Hlen Htn Hvn Hq.
    pose proof (Hpair _ _ _ Htn Hvn) as Hn.
    assert (Hne : h <> []) by (intros E; rewrite E in Hn; now destruct n).
    destruct (cursor_at_nearest h q Hne) as (i & t & v & Hi & Hc & Hmin & _).
    rewrite Hc.
    assert (Hin : (i < S n)%nat).
    { rewrite <- Hlen.
      apply nth_error_Some. rewrite (Htime _ _ _ Hi). discriminate. }
    destruct (Nat.eq_dec i n) as [->|Hneq]; [congruence|]. exfalso.
    specialize (Hmin n tn vn Hn).
    pose proof (StronglySorted_lt_nth _ i n t tn Hsorted ltac:(lia)
                  (Htime _ _ _ Hi) Htn) as Hlt.
    rewrite !Qabs_neg in Hmin by lra. lra.
Qed.

Lemma pointer_beside_trace_marks_end_sample_witness :
  exists s t v,
    run init [Frame; Frame; Frame] = Some s /\
    nth_error (Deque.to_list (time_data s)) 2 = Some t /\
    on_mouse_move s (mkMouseEvent true 9) = Some (Shown t v).
Proof.
  destruct (run init [Frame; Frame; Frame]) as [s|] eqn:E;
    [|vm_compute in E; discriminate E].
  assert (Hs : Forall slider_event [Frame; Frame; Frame])
    by (repeat constructor).
  destruct (pointer_beside_trace_marks_end_sample _ s 9 Hs E) as [_ Hnew].
  vm_compute in E. injection E as <-.
  eexists. eexists. eexists. split; [reflexivity|].
  split; [reflexivity|].
  apply (Hnew 2%nat); [reflexivity | reflexivity | reflexivity |].
  vm_compute. discriminate.
Defined.
